(** * BaseMarketMaker: the order-lifecycle engine of [base_market_maker.py]

    A shallow embedding of the methods of [BaseMarketMaker] that the class
    itself implements ([__init__], [run], [refresh_all_orders],
    [send_all_orders]) over the methods a child class has to supply
    ([check_order_fills], [delete_all_orders], [order_refresh_needed],
    [process_order_fill], [send_limit_order], [set_order_levels],
    [refresh_individual_orders]).

    - The four dictionaries of the instance are finite maps keyed by Python
      integers ([gmap Z _]).
    - A method is a function from the instance to an outcome: a result
      (a value or a raised exception), the instance as the method left it,
      and the calls it made, in order.
    - The methods of the child class are a record of state transformers over
      the whole instance: they may change any attribute.  They are taken to
      return, and to report a failure by the value they return ([False],
      the empty string), as their docstrings say. *)

From Stdlib Require Import ZArith Lia String List Floats.PrimFloat.
From stdpp Require Import base option list gmap strings.

Local Open Scope Z_scope.

(** ** Data *)

(** The exceptions the class can raise by itself: a missing attribute, a
    missing dictionary key, and the [Exception] of [refresh_all_orders]
    (whose message embeds the representation of a bound method, left out). *)
Inductive exn : Type :=
| AttributeError (attr : string)
| KeyError (key : Z)
| Exception (msg : string).

Inductive res (A : Type) : Type :=
| Ok (a : A)
| Raise (e : exn).
Arguments Ok {A} a.
Arguments Raise {A} e.

(** One planned order: the keyword arguments of [send_limit_order] that a
    level dictionary carries ([verifyOrder] is supplied by the caller). *)
Record Level : Type := mkLevel {
  clOrdID : string;
  side : string;
  px : float;
  qty : float;
  lv_symbol : string;
  alo : bool;
  tif : string;
  params : list (string * string)
}.

(** Which of the two books a call concerns. *)
Inductive BookSide : Type := Ask | Bid.

#[global] Instance BookSide_eq_dec : EqDecision BookSide.
Proof. solve_decision. Defined.

(** Where in the class a fill check or a fill processing is called from. *)
Inductive Site : Type := InRun | InRefreshAll.

(** The calls the class makes, as they are observed.  A call of a
    child-class method is recorded with its arguments and its return value;
    the loop of [send_all_orders] records the start of each iteration. *)
Inductive Event : Type :=
| EvSendAllOrders
| EvIteration (i : Z)
| EvSendLimitOrder (sd : BookSide) (i : Z) (kwargs : Level)
    (verifyOrder : bool) (ret : string)
| EvRefreshAllOrders
| EvDeleteAllOrders (sym : string) (verify : bool) (retries : Z) (ret : bool)
| EvCheckOrderFills (site : Site) (ret : bool)
| EvProcessOrderFill (site : Site)
| EvSetOrderLevels
| EvOrderRefreshNeeded (refresh_individually refresh_all : bool)
| EvRefreshIndividualOrders.

Section Model.

(** Whatever else a child class and the venue behind it keep as state. *)
Context {Ext : Type}.

(** The instance.  [__init__] sets [base], [quote], [mm_symbol] and the four
    dictionaries; it does not set [symbol], which [refresh_all_orders] reads:
    the attribute is present only when something else has set it. *)
Record Obj : Type := mkObj {
  base : string;
  quote : string;
  mm_symbol : string;
  symbol : option string;
  ask_levels : gmap Z Level;
  bid_levels : gmap Z Level;
  active_asks : gmap Z string;
  active_bids : gmap Z string;
  ext : Ext
}.

Definition init (b q s : string) (x : Ext) : Obj :=
  {| base := b; quote := q; mm_symbol := s; symbol := None;
     ask_levels := ∅; bid_levels := ∅;
     active_asks := ∅; active_bids := ∅; ext := x |}.

(** The methods left to the child class.  Each one returns its value and the
    instance as it left it. *)
Record Hooks : Type := mkHooks {
  check_order_fills : Obj -> bool * Obj;
  delete_all_orders : string -> bool -> Z -> Obj -> bool * Obj;
  order_refresh_needed : Obj -> (bool * bool) * Obj;
  process_order_fill : Obj -> Obj;
  send_limit_order : Level -> bool -> Obj -> string * Obj;
  set_order_levels : Obj -> Obj;
  refresh_individual_orders : Obj -> Obj
}.

(** ** Outcomes and their sequencing *)

Record Out (A : Type) : Type := mkOut {
  result : res A;
  final : Obj;
  events : list Event
}.
Arguments mkOut {A} _ _ _.
Arguments result {A} _.
Arguments final {A} _.
Arguments events {A} _.

Definition M (A : Type) : Type := Obj -> Out A.

Definition ret {A} (a : A) : M A := fun o => mkOut (Ok a) o [].

Definition raise {A} (e : exn) : M A := fun o => mkOut (Raise e) o [].

Definition bind {A B} (m : M A) (f : A -> M B) : M B :=
  fun o =>
    let r := m o in
    match result r with
    | Ok a =>
        let r' := f a (final r) in
        mkOut (result r') (final r') (events r ++ events r')
    | Raise e => mkOut (Raise e) (final r) (events r)
    end.

Notation "x <- m ;; k" := (bind m (fun x => k))
  (at level 100, m at next level, right associativity).
Notation "m ;; k" := (bind m (fun _ => k))
  (at level 100, right associativity).

Definition emit (e : Event) : M unit := fun o => mkOut (Ok tt) o [e].

(** Call of a child-class method: run it, record the call. *)
Definition call {A} (ev : A -> Event) (h : Obj -> A * Obj) : M A :=
  fun o => let p := h o in mkOut (Ok (fst p)) (snd p) [ev (fst p)].

Definition call_ (ev : Event) (h : Obj -> Obj) : M unit :=
  fun o => mkOut (Ok tt) (h o) [ev].

(** [self.attr] for an attribute that may be absent. *)
Definition getattr (name : string) (field : Obj -> option string) : M string :=
  fun o =>
    match field o with
    | Some v => mkOut (Ok v) o []
    | None => mkOut (Raise (AttributeError name)) o []
    end.

(** [len(d)] and [d[i]] of a dictionary attribute. *)
Definition len {V} (d : Obj -> gmap Z V) : M Z :=
  fun o => mkOut (Ok (Z.of_nat (size (d o)))) o [].

Definition getitem {V} (d : Obj -> gmap Z V) (i : Z) : M V :=
  fun o =>
    match d o !! i with
    | Some v => mkOut (Ok v) o []
    | None => mkOut (Raise (KeyError i)) o []
    end.

Definition levels (sd : BookSide) : Obj -> gmap Z Level :=
  match sd with Ask => ask_levels | Bid => bid_levels end.

Definition active (sd : BookSide) : Obj -> gmap Z string :=
  match sd with Ask => active_asks | Bid => active_bids end.

(** [self.active_asks[i] = v] and [self.active_bids[i] = v]. *)
Definition set_active (sd : BookSide) (i : Z) (v : string) (o : Obj) : Obj :=
  match sd with
  | Ask =>
      {| base := base o; quote := quote o; mm_symbol := mm_symbol o;
         symbol := symbol o;
         ask_levels := ask_levels o; bid_levels := bid_levels o;
         active_asks := <[i := v]> (active_asks o);
         active_bids := active_bids o; ext := ext o |}
  | Bid =>
      {| base := base o; quote := quote o; mm_symbol := mm_symbol o;
         symbol := symbol o;
         ask_levels := ask_levels o; bid_levels := bid_levels o;
         active_asks := active_asks o;
         active_bids := <[i := v]> (active_bids o); ext := ext o |}
  end.

Definition setitem_active (sd : BookSide) (i : Z) (v : string) : M unit :=
  fun o => mkOut (Ok tt) (set_active sd i v o) [].

(** [for i in l: body(i)]. *)
Fixpoint for_each (l : list Z) (body : Z -> M unit) : M unit :=
  match l with
  | [] => ret tt
  | i :: l' => body i ;; for_each l' body
  end.

(** [range(n)]. *)
Definition range (n : Z) : list Z := seqZ 0 n.

(** ** The methods of the class *)

Variable H : Hooks.

(** One side of one iteration of [send_all_orders]:
    [kwargs = self.X_levels[i]] and then
    [self.active_X[i] = self.send_limit_order(verifyOrder=False)] with
    the entries of [kwargs] as further keyword arguments.
    The right-hand side is evaluated before the dictionary that is
    assigned into. *)
Definition send_level (sd : BookSide) (i : Z) : M unit :=
  kwargs <- getitem (levels sd) i ;;
  r <- call (EvSendLimitOrder sd i kwargs false)
            (send_limit_order H kwargs false) ;;
  setitem_active sd i r.

(** [if i < n: ...] around it. *)
Definition send_if (n : Z) (sd : BookSide) (i : Z) : M unit :=
  if i <? n then send_level sd i else ret tt.

(** The body of the loop of [send_all_orders]: asks first, then bids. *)
Definition send_body (num_asks num_bids : Z) (i : Z) : M unit :=
  emit (EvIteration i) ;;
  send_if num_asks Ask i ;;
  send_if num_bids Bid i.

Definition send_all_orders : M unit :=
  emit EvSendAllOrders ;;
  num_asks <- len ask_levels ;;
  num_bids <- len bid_levels ;;
  let iterations := Z.max num_asks num_bids in
  for_each (range iterations) (send_body num_asks num_bids).

(** [if self.check_order_fills(): self.process_order_fill()]. *)
Definition check_and_process (st : Site) : M unit :=
  filled <- call (EvCheckOrderFills st) (check_order_fills H) ;;
  if filled : bool
  then call_ (EvProcessOrderFill st) (process_order_fill H)
  else ret tt.

Definition refresh_all_orders : M unit :=
  emit EvRefreshAllOrders ;;
  sym <- getattr "symbol" symbol ;;
  orders_deleted <- call (EvDeleteAllOrders sym true 1)
                         (delete_all_orders H sym true 1) ;;
  (if orders_deleted : bool
   then ret tt
   else raise (Exception "Error Deleting All Orders")) ;;
  check_and_process InRefreshAll ;;
  call_ EvSetOrderLevels (set_order_levels H) ;;
  send_all_orders.

(** One iteration of the [while True] loop of [run]; it returns the two
    local flags as the iteration leaves them. *)
Definition run_iteration : M (bool * bool) :=
  flags <- call (fun p : bool * bool => EvOrderRefreshNeeded (fst p) (snd p))
                (order_refresh_needed H) ;;
  let refresh_individually := fst flags in
  let refresh_all := snd flags in
  (if negb refresh_individually && negb refresh_all
   then check_and_process InRun
   else ret tt) ;;
  if refresh_all then
    refresh_all_orders ;;
    ret (false, false)
  else if refresh_individually then
    call_ EvRefreshIndividualOrders (refresh_individual_orders H) ;;
    ret (false, false)
  else ret (refresh_individually, refresh_all).

Fixpoint run_loop (n : nat) (flags : bool * bool) : M (bool * bool) :=
  match n with
  | O => ret flags
  | S n' => flags' <- run_iteration ;; run_loop n' flags'
  end.

(** [run], observed for its first [n] iterations: the loop itself has no
    exit, so [run] ends only by an exception. *)
Definition run (n : nat) : M (bool * bool) :=
  send_all_orders ;;
  run_loop n (false, false).

(** ** Reading the record of calls *)

Definition num (na nb : Z) (sd : BookSide) : Z :=
  match sd with Ask => na | Bid => nb end.

(** The indices of the loop iterations recorded, in order. *)
Fixpoint iterations_of (evs : list Event) : list Z :=
  match evs with
  | [] => []
  | EvIteration i :: evs' => i :: iterations_of evs'
  | _ :: evs' => iterations_of evs'
  end.

(** A submission of level [i] of side [sd] was attempted. *)
Definition submitted (sd : BookSide) (i : Z) (evs : list Event) : Prop :=
  exists kw v r, EvSendLimitOrder sd i kw v r ∈ evs.

(** An event of the loop of [send_all_orders]: the start of an iteration, or
    a submission without verification. *)
Definition loop_event (e : Event) : Prop :=
  match e with
  | EvIteration _ => True
  | EvSendLimitOrder _ _ _ v _ => v = false
  | _ => False
  end.




(** An event that [refresh_all_orders] can record: not one of the loop of
    [run]. *)
Definition refresh_event (e : Event) : Prop :=
  match e with
  | EvOrderRefreshNeeded _ _ | EvRefreshIndividualOrders
  | EvCheckOrderFills InRun _ | EvProcessOrderFill InRun => False
  | _ => True
  end.

(** Every fill processing recorded comes right after a fill check of the
    same place that returned [True]. *)
Definition process_follows_check (evs : list Event) : Prop :=
  forall st, EvProcessOrderFill st ∈ evs ->
    exists t1 t2,
      evs = t1 ++ EvCheckOrderFills st true :: EvProcessOrderFill st :: t2.


(** ** What is assumed of the child class, where a property needs it *)

(** [send_limit_order] leaves the two level dictionaries as they are. *)
Definition keeps_levels : Prop :=
  forall kw v o,
    ask_levels (snd (send_limit_order H kw v o)) = ask_levels o /\
    bid_levels (snd (send_limit_order H kw v o)) = bid_levels o.

(** [send_limit_order] leaves the two dictionaries of active orders as they
    are: it reports through its return value only. *)
Definition keeps_active : Prop :=
  forall kw v o,
    active_asks (snd (send_limit_order H kw v o)) = active_asks o /\
    active_bids (snd (send_limit_order H kw v o)) = active_bids o.

(** The methods called by [refresh_all_orders] before it resends leave the
    two dictionaries of active orders as they are. *)
Definition same_active (o o' : Obj) : Prop :=
  active_asks o' = active_asks o /\ active_bids o' = active_bids o.

Definition refresh_keeps_active : Prop :=
  (forall sym v n o, same_active o (snd (delete_all_orders H sym v n o))) /\
  (forall o, same_active o (snd (check_order_fills H o))) /\
  (forall o, same_active o (process_order_fill H o)) /\
  (forall o, same_active o (set_order_levels H o)).

(** A level dictionary has all the keys [0 .. len-1]. *)
Definition dense {V} (m : gmap Z V) : Prop :=
  forall i, 0 <= i < Z.of_nat (size m) -> is_Some (m !! i).

(** Some index below a side's count is missing from that side. *)
Definition missing (o : Obj) (i : Z) : Prop :=
  exists sd, 0 <= i < Z.of_nat (size (levels sd o)) /\ levels sd o !! i = None.

(** ** Statements that are compared with the class *)

(** A submission that returned the empty string leaves no key behind. *)
Definition no_phantom_handle (o : Obj) : Prop :=
  result (send_all_orders o) = Ok tt ->
  forall sd i kw v,
    EvSendLimitOrder sd i kw v EmptyString ∈ events (send_all_orders o) ->
    active sd (final (send_all_orders o)) !! i = None.

(** After a bulk refresh no key above the new level count of a side is left
    in the dictionary of active orders of that side. *)
Definition stale_keys_removed (o : Obj) : Prop :=
  result (refresh_all_orders o) = Ok tt ->
  forall sd k,
    Z.of_nat (size (levels sd (final (refresh_all_orders o)))) < k ->
    active sd (final (refresh_all_orders o)) !! k = None.

(** [send_all_orders] makes [max(len(ask_levels), len(bid_levels))]
    iterations, submits level [i] of a side exactly when [i] is below the
    count of that side, and with no bid level submits no bid, leaves
    [active_bids] empty and raises nothing. *)
Definition iterates_max_times (o : Obj) : Prop :=
  let na := Z.of_nat (size (ask_levels o)) in
  let nb := Z.of_nat (size (bid_levels o)) in
  let out := send_all_orders o in
  iterations_of (events out) = range (Z.max na nb) /\
  (forall i, i ∈ range (Z.max na nb) ->
     (submitted Ask i (events out) <-> i < na) /\
     (submitted Bid i (events out) <-> i < nb)) /\
  (bid_levels o = ∅ ->
     (forall i, ~ submitted Bid i (events out)) /\
     (active_bids o = ∅ -> active_bids (final out) = ∅) /\
     result out = Ok tt).


(** [send_all_orders] returns only on level dictionaries with exactly the
    keys [0 .. len-1], and raises [KeyError] on every index below the count
    of a side that is missing from that side. *)
Definition rejects_each_missing (o : Obj) : Prop :=
  (result (send_all_orders o) = Ok tt ->
   forall sd k,
     is_Some (levels sd o !! k) <-> 0 <= k < Z.of_nat (size (levels sd o))) /\
  (forall i, missing o i -> result (send_all_orders o) = Raise (KeyError i)).

End Model.

Arguments mkOut {Ext A} _ _ _.
Arguments result {Ext A} _.
Arguments final {Ext A} _.
Arguments events {Ext A} _.
Arguments set_active : simpl never.

(** ** Instances to run the class on *)

Definition a_level (id : string) : Level :=
  {| clOrdID := id; side := "sell"; px := 1%float; qty := 1%float;
     lv_symbol := "BTC-USD"; alo := true; tif := "GTC"; params := [] |}.

Definition with_levels (asks bids : gmap Z Level) (o : @Obj unit) : @Obj unit :=
  {| base := base o; quote := quote o; mm_symbol := mm_symbol o;
     symbol := symbol o; ask_levels := asks; bid_levels := bids;
     active_asks := active_asks o; active_bids := active_bids o;
     ext := ext o |}.

(** A child class whose methods answer with fixed values: whether there are
    fills, whether the bulk cancellation succeeded, the two refresh flags,
    whether a submission succeeds, and the levels [set_order_levels] plans.
    None of them touches the dictionaries of active orders. *)
Definition fixed_hooks (fills deleted : bool) (flags : bool * bool)
    (sends : bool) (asks bids : gmap Z Level) : @Hooks unit :=
  {| check_order_fills := fun o => (fills, o);
     delete_all_orders := fun _ _ _ o => (deleted, o);
     order_refresh_needed := fun o => (flags, o);
     process_order_fill := fun o => o;
     send_limit_order :=
       fun kw _ o => (if sends then clOrdID kw else EmptyString, o);
     set_order_levels := fun o => with_levels asks bids o;
     refresh_individual_orders := fun o => o |}.

(** An instance as a child class would have it, with [symbol] set. *)
Definition an_instance (asks bids : gmap Z Level)
    (act_asks act_bids : gmap Z string) : @Obj unit :=
  {| base := "BTC"; quote := "USD"; mm_symbol := "BTC-USD";
     symbol := Some "BTC-USD"; ask_levels := asks; bid_levels := bids;
     active_asks := act_asks; active_bids := act_bids; ext := tt |}.

Definition three_asks : gmap Z Level :=
  {[ 0 := a_level "a0"; 1 := a_level "a1"; 2 := a_level "a2" ]}.

Definition one_bid : gmap Z Level := {[ 0 := a_level "b0" ]}.

Definition one_ask : gmap Z Level := {[ 0 := a_level "n0" ]}.

(** A child class whose submissions all fail. *)
Definition sends_fail : @Hooks unit :=
  fixed_hooks false true (false, false) false ∅ ∅.

(** A child class whose bulk cancellation fails. *)
Definition cancel_fails : @Hooks unit :=
  fixed_hooks false false (false, true) true ∅ ∅.

(** A child class that asks for both refreshes, cancels with success,
    reports fills and then plans one ask level and no bid level. *)
Definition shrinking : @Hooks unit :=
  fixed_hooks true true (true, true) true one_ask ∅.

(** An instance with three ask levels and one bid level planned, no order
    sent yet. *)
Definition fresh_book : @Obj unit := an_instance three_asks one_bid ∅ ∅.

(** An instance with three ask levels sent and active. *)
Definition sent_book : @Obj unit :=
  an_instance three_asks ∅ {[ 0 := "a0"; 1 := "a1"; 2 := "a2" ]} ∅.

(** Two ask levels under the keys 1 and 2. *)
Definition shifted_asks : gmap Z Level :=
  {[ 1 := a_level "a1"; 2 := a_level "a2" ]}.


(** Two ask levels under the keys 2 and 3. *)
Definition far_asks : gmap Z Level :=
  {[ 2 := a_level "a2"; 3 := a_level "a3" ]}.


(** A child class that never asks for a refresh and reports fills. *)
Definition idle_hooks : @Hooks unit :=
  fixed_hooks true true (false, false) true ∅ ∅.

(** A child class that asks for a refresh of individual orders only. *)
Definition incremental : @Hooks unit :=
  fixed_hooks false true (true, false) true ∅ ∅.

(** ** Further readings of the record of calls *)

(** The submissions recorded, in order: side and level index. *)
Fixpoint submissions_of (evs : list Event) : list (BookSide * Z) :=
  match evs with
  | [] => []
  | EvSendLimitOrder sd i _ _ _ :: evs' => (sd, i) :: submissions_of evs'
  | _ :: evs' => submissions_of evs'
  end.

(** What iteration [i] of [send_all_orders] submits when it completes: the
    ask of level [i] if there is one, then the bid of level [i] if there is
    one. *)
Definition planned (na nb i : Z) : list (BookSide * Z) :=
  (if i <? na then [(Ask, i)] else []) ++ (if i <? nb then [(Bid, i)] else []).

(** The bulk cancellations recorded, in order: symbol, [verify], [retries]
    and the value returned. *)
Fixpoint cancels_of (evs : list Event) : list (string * bool * Z * bool) :=
  match evs with
  | [] => []
  | EvDeleteAllOrders sym v n b :: evs' => (sym, v, n, b) :: cancels_of evs'
  | _ :: evs' => cancels_of evs'
  end.

(** A call that touches no order: a query of the refresh flags, a fill
    check or a fill processing of the loop of [run], a refresh of individual
    orders. *)
Definition orderless_event (e : Event) : Prop :=
  match e with
  | EvOrderRefreshNeeded _ _ | EvRefreshIndividualOrders
  | EvCheckOrderFills InRun _ | EvProcessOrderFill InRun => True
  | _ => False
  end.

(** A call of an iteration that asks for no refresh. *)
Definition idle_event (e : Event) : Prop :=
  match e with
  | EvOrderRefreshNeeded false false
  | EvCheckOrderFills InRun _ | EvProcessOrderFill InRun => True
  | _ => False
  end.


Section RefreshPath.

Context {Ext : Type} (H : @Hooks Ext).

(** The instance on which [refresh_all_orders] resends when the bulk
    cancellation succeeded: as left by the cancellation, the fill check, the
    fill processing if there were fills, and [set_order_levels]. *)
Definition before_resend (sym : string) (o : @Obj Ext) : @Obj Ext :=
  let o1 := snd (delete_all_orders H sym true 1 o) in
  let c := check_order_fills H o1 in
  set_order_levels H (if fst c then process_order_fill H (snd c) else snd c).

End RefreshPath.

(** ** Lemmas on one iteration of [send_all_orders] *)

Section SendLoop.

Context {Ext : Type} (H : @Hooks Ext).

Implicit Types (o : @Obj Ext) (sd : BookSide) (i k : Z).

Lemma send_level_eq sd i o :
  send_level H sd i o =
  match levels sd o !! i with
  | Some kw =>
      let p := send_limit_order H kw false o in
      mkOut (Ok tt) (set_active sd i (fst p) (snd p))
            [EvSendLimitOrder sd i kw false (fst p)]
  | None => mkOut (Raise (KeyError i)) o []
  end.
Proof.
  unfold send_level, bind, getitem, call, setitem_active.
  destruct (levels sd o !! i); reflexivity.
Qed.

Lemma levels_set_active sd sd' i v o :
  levels sd' (set_active sd i v o) = levels sd' o.
Proof. destruct sd, sd'; reflexivity. Qed.

Lemma active_set_active sd sd' i k v o :
  active sd' (set_active sd i v o) !! k =
  if decide (sd' = sd /\ k = i) then Some v else active sd' o !! k.
Proof.
  case_decide as Hd.
  - destruct Hd as [-> ->]. destruct sd; apply lookup_insert_eq.
  - destruct sd, sd'; simpl; try reflexivity.
    all: apply lookup_insert_ne; intros ->; apply Hd; done.
Qed.

Lemma keeps_levels_side sd kw v o :
  keeps_levels H -> levels sd (snd (send_limit_order H kw v o)) = levels sd o.
Proof. intros Hk. destruct (Hk kw v o), sd; assumption. Qed.

Lemma keeps_active_side sd kw v o :
  keeps_active H -> active sd (snd (send_limit_order H kw v o)) = active sd o.
Proof. intros Hk. destruct (Hk kw v o), sd; assumption. Qed.

Lemma send_if_cases n sd i o :
  (~ i < n /\ send_if H n sd i o = mkOut (Ok tt) o []) \/
  (i < n /\ levels sd o !! i = None /\
   send_if H n sd i o = mkOut (Raise (KeyError i)) o []) \/
  (i < n /\ exists kw, levels sd o !! i = Some kw /\
   send_if H n sd i o =
   mkOut (Ok tt)
     (set_active sd i (fst (send_limit_order H kw false o))
        (snd (send_limit_order H kw false o)))
     [EvSendLimitOrder sd i kw false (fst (send_limit_order H kw false o))]).
Proof.
  unfold send_if. destruct (Z.ltb_spec i n) as [Hlt|Hge].
  - rewrite send_level_eq. destruct (levels sd o !! i) as [kw|] eqn:Hk.
    + right; right. split; [assumption|]. exists kw. split; reflexivity.
    + right; left. repeat split; assumption.
  - left. split; [lia | reflexivity].
Qed.

Lemma send_body_eq na nb i o :
  send_body H na nb i o =
  let a := send_if H na Ask i o in
  match result a with
  | Ok _ =>
      let b := send_if H nb Bid i (final a) in
      mkOut (result b) (final b) (EvIteration i :: events a ++ events b)
  | Raise e => mkOut (Raise e) (final a) (EvIteration i :: events a)
  end.
Proof.
  unfold send_body, bind, emit. simpl.
  destruct (result (send_if H na Ask i o)); reflexivity.
Qed.

End SendLoop.

(** ** A rule for [for_each]: an invariant over the indices already visited *)

Section ForEachRule.

Context {Ext : Type}.
Variable body : Z -> @M Ext unit.
Variable l : list Z.
Variable Inv : list Z -> @Obj Ext -> list Event -> Prop.
Variable Err : list Z -> Z -> exn -> @Obj Ext -> list Event -> Prop.
Variable o0 : @Obj Ext.

Hypothesis Hinit : Inv [] o0 [].
Hypothesis Hstep :
  forall done i rest o evs,
    l = done ++ i :: rest -> Inv done o evs ->
    match result (body i o) with
    | Ok _ => Inv (done ++ [i]) (final (body i o)) (evs ++ events (body i o))
    | Raise e => Err done i e (final (body i o)) (evs ++ events (body i o))
    end.

Lemma for_each_rule_from rest :
  forall done o evs,
    l = done ++ rest -> Inv done o evs ->
    match result (for_each rest body o) with
    | Ok _ =>
        Inv l (final (for_each rest body o))
          (evs ++ events (for_each rest body o))
    | Raise e =>
        exists done' i rest',
          l = done' ++ i :: rest' /\
          Err done' i e (final (for_each rest body o))
            (evs ++ events (for_each rest body o))
    end.
Proof.
  induction rest as [|i rest IH]; intros done o evs Hl HI.
  - simpl. rewrite !app_nil_r in *. subst l. exact HI.
  - simpl. unfold bind.
    pose proof (Hstep done i rest o evs Hl HI) as Hs.
    destruct (result (body i o)) as [[]|e] eqn:Hr.
    + specialize (IH (done ++ [i]) (final (body i o))
                     (evs ++ events (body i o))).
      rewrite <- app_assoc in IH. specialize (IH Hl Hs).
      simpl. rewrite app_assoc. exact IH.
    + simpl. exists done, i, rest. split; [exact Hl | exact Hs].
Qed.

Lemma for_each_rule :
  match result (for_each l body o0) with
  | Ok _ => Inv l (final (for_each l body o0)) (events (for_each l body o0))
  | Raise e =>
      exists done i rest,
        l = done ++ i :: rest /\
        Err done i e (final (for_each l body o0))
          (events (for_each l body o0))
  end.
Proof. exact (for_each_rule_from l [] o0 [] eq_refl Hinit). Qed.

End ForEachRule.

(** ** The loop of [send_all_orders] *)

Section LoopFacts.

Context {Ext : Type} (H : @Hooks Ext).

Implicit Types (o : @Obj Ext) (sd : BookSide) (i k : Z).

Lemma iterations_of_app (a b : list Event) :
  iterations_of (a ++ b) = iterations_of a ++ iterations_of b.
Proof.
  induction a as [|e a IH]; [reflexivity|].
  destruct e; simpl; rewrite IH; reflexivity.
Qed.

Ltac body_cases na nb i o :=
  rewrite (send_body_eq H na nb i o); cbv zeta;
  destruct (send_if_cases H na Ask i o)
    as [[Ha Ea]|[(Ha & Hka & Ea)|(Ha & kwa & Hka & Ea)]];
  rewrite Ea; cbn [result final events];
  try (destruct (send_if_cases H nb Bid i
                   (set_active Ask i
                      (fst (send_limit_order H kwa false o))
                      (snd (send_limit_order H kwa false o))))
        as [[Hb Eb]|[(Hb & Hkb & Eb)|(Hb & kwb & Hkb & Eb)]];
       rewrite Eb; cbn [result final events]);
  try (destruct (send_if_cases H nb Bid i o)
        as [[Hb Eb]|[(Hb & Hkb & Eb)|(Hb & kwb & Hkb & Eb)]];
       rewrite Eb; cbn [result final events]).

(** The calls of one iteration: its start, then the submissions of level
    [i], each on a side whose count is above [i]. *)
Lemma send_body_events na nb i o :
  exists sends,
    events (send_body H na nb i o) = EvIteration i :: sends /\
    iterations_of sends = [] /\
    Forall loop_event sends /\
    (forall sd j kw v r,
        EvSendLimitOrder sd j kw v r ∈ sends -> j = i /\ i < num na nb sd) /\
    (result (send_body H na nb i o) = Ok tt ->
     forall sd, i < num na nb sd -> submitted sd i sends).
Proof.
  body_cases na nb i o; eexists; (split; [reflexivity|]); simpl;
    (split; [reflexivity|]);
    (split; [repeat constructor|]);
    (split; [intros sd j kw v r Hin;
             repeat (apply elem_of_cons in Hin as [Hin|Hin];
                     [injection Hin as -> -> -> -> ->; simpl; split;
                      [reflexivity | assumption]|]);
             apply elem_of_nil in Hin; contradiction|]).
  all: try (intros Hr; discriminate Hr).
  all: intros _ [] Hlt; simpl in Hlt; try contradiction.
  all: eexists _, _, _;
       first [apply list_elem_of_here
             | apply list_elem_of_further, list_elem_of_here].
Qed.

Ltac in_events Hin :=
  repeat (apply elem_of_cons in Hin as [Hin|Hin];
          [try discriminate Hin;
           try (injection Hin as -> -> -> -> ->)|]);
  try (apply elem_of_nil in Hin; contradiction).

Lemma send_body_levels na nb i o :
  keeps_levels H ->
  forall sd, levels sd (final (send_body H na nb i o)) = levels sd o.
Proof.
  intros Hk sd. body_cases na nb i o;
    rewrite ?levels_set_active, ?keeps_levels_side by assumption;
    rewrite ?levels_set_active, ?keeps_levels_side by assumption;
    reflexivity.
Qed.

Lemma send_body_result na nb i o :
  keeps_levels H ->
  match result (send_body H na nb i o) with
  | Ok _ => forall sd, i < num na nb sd -> is_Some (levels sd o !! i)
  | Raise e =>
      e = KeyError i /\ exists sd, i < num na nb sd /\ levels sd o !! i = None
  end.
Proof.
  intros Hk. body_cases na nb i o;
    rewrite ?levels_set_active, ?keeps_levels_side in * by assumption.
  all: try (intros [] Hlt; simpl in Hlt; try contradiction; eauto; fail).
  all: split; [reflexivity|].
  all: first [ exists Ask; split; assumption | exists Bid; split; assumption ].
Qed.

Lemma send_body_kwargs na nb i o sd j kw v r :
  keeps_levels H ->
  EvSendLimitOrder sd j kw v r ∈ events (send_body H na nb i o) ->
  levels sd o !! j = Some kw.
Proof.
  intros Hk. body_cases na nb i o;
    rewrite ?levels_set_active, ?keeps_levels_side in * by assumption;
    intros Hin; in_events Hin; assumption.
Qed.

Lemma send_body_active na nb i o :
  keeps_active H ->
  (forall sd k, k <> i \/ ~ i < num na nb sd ->
     active sd (final (send_body H na nb i o)) !! k = active sd o !! k) /\
  (forall sd j kw v r,
     EvSendLimitOrder sd j kw v r ∈ events (send_body H na nb i o) ->
     active sd (final (send_body H na nb i o)) !! j = Some r).
Proof.
  intros Hk. body_cases na nb i o; split.
  all: try (intros sd j kw v r Hin; in_events Hin;
            rewrite ?active_set_active, ?keeps_active_side by assumption;
            repeat (case_decide; try tauto; try (destruct_and?; discriminate));
            rewrite ?active_set_active, ?keeps_active_side by assumption;
            repeat (case_decide; try tauto; try (destruct_and?; discriminate));
            fail).
  all: intros sd k Hor;
       rewrite ?active_set_active, ?keeps_active_side by assumption;
       repeat (case_decide; destruct_and?; subst; simpl in *; try tauto);
       rewrite ?active_set_active, ?keeps_active_side by assumption;
       repeat (case_decide; destruct_and?; subst; simpl in *; try tauto);
       try reflexivity.
Qed.

(** The calls of the whole loop. *)
Lemma send_loop_events na nb l o :
  Forall loop_event (events (for_each l (send_body H na nb) o)) /\
  (forall sd i kw v r,
     EvSendLimitOrder sd i kw v r ∈ events (for_each l (send_body H na nb) o) ->
     i ∈ l /\ i < num na nb sd) /\
  (result (for_each l (send_body H na nb) o) = Ok tt ->
   iterations_of (events (for_each l (send_body H na nb) o)) = l /\
   forall sd i, i ∈ l -> i < num na nb sd ->
     submitted sd i (events (for_each l (send_body H na nb) o))).
Proof.
  pose proof (for_each_rule (send_body H na nb) l
    (fun done _ evs =>
       Forall loop_event evs /\
       (forall sd i kw v r,
          EvSendLimitOrder sd i kw v r ∈ evs -> i ∈ done /\ i < num na nb sd) /\
       iterations_of evs = done /\
       (forall sd i, i ∈ done -> i < num na nb sd -> submitted sd i evs))
    (fun done i _ _ evs =>
       Forall loop_event evs /\
       (forall sd j kw v r,
          EvSendLimitOrder sd j kw v r ∈ evs ->
          j ∈ done ++ [i] /\ j < num na nb sd))
    o) as Hrule.
  lapply Hrule; clear Hrule.
  2:{ split; [constructor|]. split.
      - intros sd i kw v r Hin. apply elem_of_nil in Hin. contradiction.
      - split; [reflexivity|]. intros sd i Hin.
        apply elem_of_nil in Hin. contradiction. }
  intros Hrule. lapply Hrule; clear Hrule.
  2:{ intros done i rest o' evs _ (Hall & Hsend & Hit & Hsub).
      destruct (send_body_events na nb i o')
        as (sends & Hev & Hits & Hloop & Hidx & Hok).
      assert (Hall' : Forall loop_event (evs ++ events (send_body H na nb i o'))).
      { rewrite Hev. apply Forall_app. split; [assumption|].
        constructor; [exact I | assumption]. }
      assert (Hsend' : forall sd j kw v r,
                 EvSendLimitOrder sd j kw v r
                 ∈ evs ++ events (send_body H na nb i o') ->
                 j ∈ done ++ [i] /\ j < num na nb sd).
      { intros sd j kw v r Hin. rewrite Hev in Hin.
        apply elem_of_app in Hin as [Hin|Hin].
        - destruct (Hsend _ _ _ _ _ Hin). split; [|assumption].
          apply elem_of_app. left. assumption.
        - apply elem_of_cons in Hin as [Hin|Hin]; [discriminate|].
          destruct (Hidx _ _ _ _ _ Hin) as [-> ?]. split; [|assumption].
          apply elem_of_app. right. apply list_elem_of_here. }
      destruct (result (send_body H na nb i o')) as [[]|e] eqn:Hr;
        [|split; assumption].
      split; [assumption|]. split; [assumption|]. split.
      - rewrite iterations_of_app, Hev. simpl. rewrite Hits, Hit. reflexivity.
      - intros sd j Hin Hlt. apply elem_of_app in Hin as [Hin|Hin].
        + destruct (Hsub sd j Hin Hlt) as (kw & v & r & Hin').
          exists kw, v, r. apply elem_of_app. left. assumption.
        + apply list_elem_of_singleton in Hin as ->.
          destruct (Hok eq_refl sd Hlt) as (kw & v & r & Hin').
          exists kw, v, r. rewrite Hev. apply elem_of_app. right.
          apply list_elem_of_further. assumption. }
  intros Hrule.
  destruct (result (for_each l (send_body H na nb) o)) as [[]|e].
  - destruct Hrule as (Hall & Hsend & Hit & Hsub).
    split; [assumption|]. split; [assumption|]. intros _. split; assumption.
  - destruct Hrule as (done & i & rest & Hl & Hall & Hsend).
    split; [assumption|]. split; [|intros Hr; discriminate Hr].
    intros sd j kw v r Hin. destruct (Hsend _ _ _ _ _ Hin) as [Hj ?].
    split; [|assumption]. rewrite Hl.
    replace (done ++ i :: rest) with ((done ++ [i]) ++ rest)
      by (rewrite <- app_assoc; reflexivity).
    apply elem_of_app. left. assumption.
Qed.

Lemma prefix_snoc_in (done rest : list Z) i j :
  j ∈ done ++ [i] -> j ∈ done ++ i :: rest.
Proof.
  intros Hin. apply elem_of_app in Hin as [Hin|Hin]; apply elem_of_app.
  - left. assumption.
  - right. apply list_elem_of_singleton in Hin as ->. apply list_elem_of_here.
Qed.

(** Level dictionaries through the loop, when [send_limit_order] leaves them
    alone: the loop ends normally exactly when no index it visits is missing,
    and otherwise raises [KeyError] at the first index that is. *)
Lemma send_loop_levels na nb l o :
  keeps_levels H ->
  (forall sd, levels sd (final (for_each l (send_body H na nb) o)) = levels sd o) /\
  (forall sd j kw v r,
     EvSendLimitOrder sd j kw v r ∈ events (for_each l (send_body H na nb) o) ->
     levels sd o !! j = Some kw) /\
  match result (for_each l (send_body H na nb) o) with
  | Ok _ => forall j sd, j ∈ l -> j < num na nb sd -> is_Some (levels sd o !! j)
  | Raise e =>
      exists done i rest,
        l = done ++ i :: rest /\ e = KeyError i /\
        (exists sd, i < num na nb sd /\ levels sd o !! i = None) /\
        (forall j sd, j ∈ done -> j < num na nb sd -> is_Some (levels sd o !! j))
  end.
Proof.
  intros Hk.
  pose proof (for_each_rule (send_body H na nb) l
    (fun done o' evs =>
       (forall sd, levels sd o' = levels sd o) /\
       (forall sd j kw v r,
          EvSendLimitOrder sd j kw v r ∈ evs -> levels sd o !! j = Some kw) /\
       (forall j sd, j ∈ done -> j < num na nb sd -> is_Some (levels sd o !! j)))
    (fun done i e o' evs =>
       (forall sd, levels sd o' = levels sd o) /\
       (forall sd j kw v r,
          EvSendLimitOrder sd j kw v r ∈ evs -> levels sd o !! j = Some kw) /\
       e = KeyError i /\
       (exists sd, i < num na nb sd /\ levels sd o !! i = None) /\
       (forall j sd, j ∈ done -> j < num na nb sd -> is_Some (levels sd o !! j)))
    o) as Hrule.
  lapply Hrule; clear Hrule.
  2:{ split; [reflexivity|]. split.
      - intros sd j kw v r Hin. apply elem_of_nil in Hin. contradiction.
      - intros j sd Hin. apply elem_of_nil in Hin. contradiction. }
  intros Hrule. lapply Hrule; clear Hrule.
  2:{ intros done i rest o' evs _ (Hlv & Hkw & Hpre).
      pose proof (send_body_levels na nb i o' Hk) as Hlv'.
      pose proof (send_body_result na nb i o' Hk) as Hres.
      assert (Hkw' : forall sd j kw v r,
                 EvSendLimitOrder sd j kw v r
                 ∈ evs ++ events (send_body H na nb i o') ->
                 levels sd o !! j = Some kw).
      { intros sd j kw v r Hin. apply elem_of_app in Hin as [Hin|Hin].
        - eapply Hkw. eassumption.
        - rewrite <- Hlv. eapply send_body_kwargs; eassumption. }
      destruct (result (send_body H na nb i o')) as [[]|e].
      - split; [intros sd; rewrite Hlv'; apply Hlv|].
        split; [assumption|].
        intros j sd Hin Hlt. apply elem_of_app in Hin as [Hin|Hin].
        + apply Hpre; assumption.
        + apply list_elem_of_singleton in Hin as ->. rewrite <- Hlv.
          apply Hres. assumption.
      - destruct Hres as (-> & sd & Hlt & Hnone).
        split; [intros sd'; rewrite Hlv'; apply Hlv|].
        split; [assumption|]. split; [reflexivity|].
        split; [|assumption]. exists sd. rewrite <- Hlv. split; assumption. }
  intros Hrule.
  destruct (result (for_each l (send_body H na nb) o)) as [[]|e].
  - destruct Hrule as (Hlv & Hkw & Hpre). repeat split; assumption.
  - destruct Hrule as (done & i & rest & Hl & Hlv & Hkw & He & Hmiss & Hpre).
    split; [assumption|]. split; [assumption|].
    exists done, i, rest. repeat split; assumption.
Qed.

(** The dictionaries of active orders through the loop, when
    [send_limit_order] leaves them alone and no index is visited twice: a key
    that is not submitted keeps its binding, and a key that is submitted is
    bound to what the submission returned. *)
Lemma send_loop_active na nb l o :
  keeps_active H -> NoDup l ->
  (forall sd k, k ∉ l \/ ~ k < num na nb sd ->
     active sd (final (for_each l (send_body H na nb) o)) !! k =
     active sd o !! k) /\
  (forall sd j kw v r,
     EvSendLimitOrder sd j kw v r ∈ events (for_each l (send_body H na nb) o) ->
     active sd (final (for_each l (send_body H na nb) o)) !! j = Some r).
Proof.
  intros Hk Hnd.
  pose proof (for_each_rule (send_body H na nb) l
    (fun done o' evs =>
       (forall sd k, k ∉ done \/ ~ k < num na nb sd ->
          active sd o' !! k = active sd o !! k) /\
       (forall sd j kw v r,
          EvSendLimitOrder sd j kw v r ∈ evs ->
          j ∈ done /\ active sd o' !! j = Some r))
    (fun done i _ o' evs =>
       (forall sd k, k ∉ done ++ [i] \/ ~ k < num na nb sd ->
          active sd o' !! k = active sd o !! k) /\
       (forall sd j kw v r,
          EvSendLimitOrder sd j kw v r ∈ evs ->
          j ∈ done ++ [i] /\ active sd o' !! j = Some r))
    o) as Hrule.
  lapply Hrule; clear Hrule.
  2:{ split; [reflexivity|].
      intros sd j kw v r Hin. apply elem_of_nil in Hin. contradiction. }
  intros Hrule. lapply Hrule; clear Hrule.
  2:{ intros done i rest o' evs Hl (Hout & Hin).
      assert (Hfresh : i ∉ done).
      { rewrite Hl in Hnd. apply NoDup_app in Hnd as (_ & Hdis & _).
        intros Hi. apply (Hdis i Hi). apply list_elem_of_here. }
      destruct (send_body_active na nb i o' Hk) as [Hoth Hset].
      destruct (send_body_events na nb i o')
        as (sends & Hev & _ & _ & Hidx & _).
      assert (Hboth :
        (forall sd k, k ∉ done ++ [i] \/ ~ k < num na nb sd ->
           active sd (final (send_body H na nb i o')) !! k = active sd o !! k) /\
        (forall sd j kw v r,
           EvSendLimitOrder sd j kw v r
           ∈ evs ++ events (send_body H na nb i o') ->
           j ∈ done ++ [i] /\
           active sd (final (send_body H na nb i o')) !! j = Some r)).
      { split.
        - intros sd k Hor. destruct (decide (k = i)) as [->|Hne].
          + destruct Hor as [Hnin|Hge].
            * exfalso. apply Hnin. apply elem_of_app. right.
              apply list_elem_of_here.
            * rewrite Hoth by (right; assumption). apply Hout. right.
              assumption.
          + rewrite Hoth by (left; assumption). apply Hout.
            destruct Hor as [Hnin|Hge]; [left|right; assumption].
            intros Hd. apply Hnin. apply elem_of_app. left. assumption.
        - intros sd j kw v r Hj. apply elem_of_app in Hj as [Hj|Hj].
          + destruct (Hin _ _ _ _ _ Hj) as [Hjd Hact].
            split; [apply elem_of_app; left; assumption|].
            rewrite Hoth; [assumption|]. left. intros ->. contradiction.
          + split.
            * rewrite Hev in Hj.
              apply elem_of_cons in Hj as [Hj|Hj]; [discriminate|].
              destruct (Hidx _ _ _ _ _ Hj) as [-> _].
              apply elem_of_app. right. apply list_elem_of_here.
            * eapply Hset. eassumption. }
      destruct (result (send_body H na nb i o')) as [[]|e]; exact Hboth. }
  intros Hrule.
  destruct (result (for_each l (send_body H na nb) o)) as [[]|e].
  - destruct Hrule as [Hout Hin]. split; [assumption|].
    intros sd j kw v r Hj. eapply Hin. eassumption.
  - destruct Hrule as (done & i & rest & Hl & Hout & Hin). split.
    + intros sd k Hor. apply Hout. destruct Hor as [Hnin|Hge]; [left|right; assumption].
      intros Hd. apply Hnin. rewrite Hl. apply prefix_snoc_in. assumption.
    + intros sd j kw v r Hj. eapply Hin. eassumption.
Qed.




End LoopFacts.

(** ** [send_all_orders] *)

Section SendAll.

Context {Ext : Type} (H : @Hooks Ext).

Implicit Types (o : @Obj Ext) (sd : BookSide) (i k : Z).

Lemma send_all_orders_eq o :
  send_all_orders H o =
  let na := Z.of_nat (size (ask_levels o)) in
  let nb := Z.of_nat (size (bid_levels o)) in
  let out := for_each (range (Z.max na nb)) (send_body H na nb) o in
  mkOut (result out) (final out) (EvSendAllOrders :: events out).
Proof.
  unfold send_all_orders, bind, emit, len. cbn [result final events].
  destruct (result (for_each _ _ o)); reflexivity.
Qed.

Lemma num_count o sd :
  num (Z.of_nat (size (ask_levels o))) (Z.of_nat (size (bid_levels o))) sd =
  Z.of_nat (size (levels sd o)).
Proof. destruct sd; reflexivity. Qed.

Lemma count_le_max o sd :
  Z.of_nat (size (levels sd o)) <=
  Z.max (Z.of_nat (size (ask_levels o))) (Z.of_nat (size (bid_levels o))).
Proof. destruct sd; simpl; lia. Qed.

Lemma elem_of_range n i : i ∈ range n <-> 0 <= i < n.
Proof. unfold range. rewrite elem_of_seqZ. lia. Qed.

Lemma range_split n (done rest : list Z) i :
  range n = done ++ i :: rest ->
  0 <= i < n /\ forall j, 0 <= j < i -> j ∈ done.
Proof.
  intros Hsp.
  assert (Hi : range n !! length done = Some i).
  { rewrite Hsp. rewrite lookup_app_r by lia.
    rewrite Nat.sub_diag. reflexivity. }
  unfold range in Hi. apply lookup_seqZ in Hi as [Hi Hlt].
  split; [lia|]. intros j Hj.
  assert (Hjl : range n !! Z.to_nat j = Some j).
  { unfold range. apply lookup_seqZ. lia. }
  rewrite Hsp in Hjl. rewrite lookup_app_l in Hjl by lia.
  apply list_elem_of_lookup. exists (Z.to_nat j). exact Hjl.
Qed.

(** A dictionary with all the keys [0 .. len-1] has no other key. *)
Lemma dense_exact {V} (m : gmap Z V) :
  dense m -> forall k, is_Some (m !! k) <-> 0 <= k < Z.of_nat (size m).
Proof.
  intros Hd k. split; [|apply Hd].
  intros Hk.
  assert (Hsub : (list_to_set (seqZ 0 (Z.of_nat (size m))) : gset Z) ⊆ dom m).
  { intros j Hj. apply elem_of_list_to_set, elem_of_seqZ in Hj.
    apply elem_of_dom, Hd. lia. }
  assert (Hsz : (size (dom m) <=
                 size (list_to_set (seqZ 0 (Z.of_nat (size m))) : gset Z))%nat).
  { rewrite size_dom, size_list_to_set by apply NoDup_seqZ.
    rewrite length_seqZ. lia. }
  pose proof (set_subseteq_size_eq _ _ Hsub Hsz) as Heq.
  apply elem_of_dom in Hk. rewrite <- Heq in Hk.
  apply elem_of_list_to_set, elem_of_seqZ in Hk. lia.
Qed.

(** The outcome of [send_all_orders] when [send_limit_order] leaves the
    level dictionaries alone: it returns when both dictionaries have all
    their keys [0 .. len-1], and otherwise raises [KeyError] at the least
    index that one of them misses. *)
Lemma send_all_orders_result o :
  keeps_levels H ->
  match result (send_all_orders H o) with
  | Ok _ => forall sd, dense (levels sd o)
  | Raise e =>
      exists j, e = KeyError j /\ missing o j /\
                forall j', 0 <= j' < j -> ~ missing o j'
  end.
Proof.
  intros Hk. rewrite send_all_orders_eq. cbv zeta. cbn [result].
  destruct (send_loop_levels H
              (Z.of_nat (size (ask_levels o))) (Z.of_nat (size (bid_levels o)))
              (range (Z.max (Z.of_nat (size (ask_levels o)))
                            (Z.of_nat (size (bid_levels o))))) o Hk)
    as (_ & _ & Hres).
  destruct (result (for_each _ _ o)) as [[]|e].
  - intros sd i Hi. apply (Hres i sd).
    + apply elem_of_range. pose proof (count_le_max o sd). lia.
    + rewrite num_count. lia.
  - destruct Hres as (done & i & rest & Hl & -> & (sd & Hlt & Hnone) & Hpre).
    apply range_split in Hl as [Hi Hbefore].
    exists i. split; [reflexivity|]. split.
    + exists sd. rewrite num_count in Hlt. split; [lia | assumption].
    + intros j' Hj' (sd' & Hlt' & Hnone').
      destruct (Hpre j' sd' (Hbefore j' Hj')) as [x Hx].
      * rewrite num_count. lia.
      * rewrite Hnone' in Hx. discriminate.
Qed.

Lemma send_all_orders_dense_ok o :
  keeps_levels H -> (forall sd, dense (levels sd o)) ->
  result (send_all_orders H o) = Ok tt.
Proof.
  intros Hk Hd. pose proof (send_all_orders_result o Hk) as Hres.
  destruct (result (send_all_orders H o)) as [[]|e]; [reflexivity|].
  destruct Hres as (j & _ & (sd & Hj & Hnone) & _).
  destruct (Hd sd j Hj) as [x Hx]. rewrite Hnone in Hx. discriminate.
Qed.

Lemma send_all_orders_events o :
  exists evs,
    events (send_all_orders H o) = EvSendAllOrders :: evs /\
    Forall loop_event evs /\
    (forall sd i kw v r,
       EvSendLimitOrder sd i kw v r ∈ evs ->
       0 <= i < Z.of_nat (size (levels sd o))) /\
    (result (send_all_orders H o) = Ok tt ->
     iterations_of evs =
       range (Z.max (Z.of_nat (size (ask_levels o)))
                    (Z.of_nat (size (bid_levels o)))) /\
     forall sd i, 0 <= i < Z.of_nat (size (levels sd o)) -> submitted sd i evs).
Proof.
  rewrite send_all_orders_eq. cbv zeta. cbn [result events].
  destruct (send_loop_events H
              (Z.of_nat (size (ask_levels o))) (Z.of_nat (size (bid_levels o)))
              (range (Z.max (Z.of_nat (size (ask_levels o)))
                            (Z.of_nat (size (bid_levels o))))) o)
    as (Hall & Hsend & Hok).
  eexists. split; [reflexivity|]. split; [assumption|]. split.
  - intros sd i kw v r Hin. destruct (Hsend _ _ _ _ _ Hin) as [Hr Hlt].
    apply elem_of_range in Hr. rewrite num_count in Hlt. lia.
  - intros Hr. destruct (Hok Hr) as [Hit Hsub]. split; [assumption|].
    intros sd i Hi. apply Hsub.
    + apply elem_of_range. pose proof (count_le_max o sd). lia.
    + rewrite num_count. lia.
Qed.

Lemma send_all_orders_active o :
  keeps_active H ->
  (forall sd k, k < 0 \/ Z.of_nat (size (levels sd o)) <= k ->
     active sd (final (send_all_orders H o)) !! k = active sd o !! k) /\
  (forall sd j kw v r,
     EvSendLimitOrder sd j kw v r ∈ events (send_all_orders H o) ->
     active sd (final (send_all_orders H o)) !! j = Some r).
Proof.
  intros Hk. rewrite send_all_orders_eq. cbv zeta. cbn [final events].
  destruct (send_loop_active H
              (Z.of_nat (size (ask_levels o))) (Z.of_nat (size (bid_levels o)))
              (range (Z.max (Z.of_nat (size (ask_levels o)))
                            (Z.of_nat (size (bid_levels o))))) o Hk
              (NoDup_seqZ _ _))
    as [Hout Hin].
  split.
  - intros sd k Hor. apply Hout. destruct Hor as [Hneg|Hge].
    + left. rewrite elem_of_range. lia.
    + right. rewrite num_count. lia.
  - intros sd j kw v r Hj.
    apply elem_of_cons in Hj as [Hj|Hj]; [discriminate|].
    eapply Hin. eassumption.
Qed.

Lemma send_all_orders_levels o :
  keeps_levels H ->
  forall sd, levels sd (final (send_all_orders H o)) = levels sd o.
Proof.
  intros Hk. rewrite send_all_orders_eq. cbv zeta. cbn [final].
  apply send_loop_levels. assumption.
Qed.

(** C1, as the class has it: when [send_limit_order] returns the empty
    string for level [i] of a side, the key [i] is present in the dictionary
    of active orders of that side after [send_all_orders], bound to the empty
    string: the value returned is stored whatever it is. *)
Theorem failed_send_is_stored o sd i kw v :
  keeps_active H ->
  EvSendLimitOrder sd i kw v EmptyString ∈ events (send_all_orders H o) ->
  active sd (final (send_all_orders H o)) !! i = Some EmptyString.
Proof.
  intros Hk Hin. destruct (send_all_orders_active o Hk) as [_ Hset].
  eapply Hset. eassumption.
Qed.

(** C9, for level dictionaries that have all their keys [0 .. len-1] and
    a [send_limit_order] that leaves the level dictionaries and the
    dictionaries of active orders alone: [send_all_orders] makes
    [max(len(ask_levels), len(bid_levels))] iterations, submits level [i] of
    a side exactly when [i] is below the count of that side, and with no bid
    level submits no bid, leaves [active_bids] as it was and raises
    nothing. *)
Theorem send_all_orders_iterations o :
  keeps_levels H -> keeps_active H ->
  dense (ask_levels o) -> dense (bid_levels o) ->
  iterates_max_times H o /\
  (bid_levels o = ∅ -> active_bids (final (send_all_orders H o)) = active_bids o).
Proof.
  intros Hkl Hka Hda Hdb.
  assert (Hd : forall sd, dense (levels sd o)) by (intros []; assumption).
  pose proof (send_all_orders_dense_ok o Hkl Hd) as Hok.
  destruct (send_all_orders_events o) as (evs & Hev & _ & Hsend & Hsub).
  destruct (Hsub Hok) as [Hit Hall]. clear Hsub.
  assert (Hsubm : forall sd i,
             submitted sd i (events (send_all_orders H o)) <->
             0 <= i < Z.of_nat (size (levels sd o))).
  { intros sd i. rewrite Hev. split.
    - intros (kw & v & r & Hin).
      apply elem_of_cons in Hin as [Hin|Hin]; [discriminate|].
      eapply Hsend. eassumption.
    - intros Hi. destruct (Hall sd i Hi) as (kw & v & r & Hin).
      exists kw, v, r. apply list_elem_of_further. assumption. }
  assert (Hbids : bid_levels o = ∅ ->
            active_bids (final (send_all_orders H o)) = active_bids o).
  { intros Hempty. apply map_eq. intros k.
    destruct (send_all_orders_active o Hka) as [Hout _].
    apply (Hout Bid k). simpl. rewrite Hempty, map_size_empty. lia. }
  split; [|exact Hbids].
  unfold iterates_max_times. cbv zeta. split; [|split].
  - rewrite Hev. simpl. exact Hit.
  - intros i Hi. apply elem_of_range in Hi.
    split; rewrite Hsubm; simpl; lia.
  - intros Hempty. split; [|split].
    + intros i Hs. apply Hsubm in Hs. simpl in Hs.
      rewrite Hempty, map_size_empty in Hs. lia.
    + intros Hact. rewrite (Hbids Hempty). exact Hact.
    + exact Hok.
Qed.

(** C10, as the class has it, for a [send_limit_order] that leaves the
    level dictionaries alone: when [send_all_orders] ends without an error,
    each level dictionary has exactly the keys [0 .. len-1]; and when some
    index below the count of a side is missing from that side, it raises
    [KeyError] on the least such index, the first its loop reaches, whatever
    other indices are missing. *)
Theorem send_all_orders_rejects_sparse o :
  keeps_levels H ->
  (result (send_all_orders H o) = Ok tt ->
   forall sd k,
     is_Some (levels sd o !! k) <-> 0 <= k < Z.of_nat (size (levels sd o))) /\
  (forall i, missing o i ->
     exists j, result (send_all_orders H o) = Raise (KeyError j) /\
               missing o j /\ j <= i /\
               forall j', 0 <= j' < j -> ~ missing o j').
Proof.
  intros Hk. pose proof (send_all_orders_result o Hk) as Hres. split.
  - intros Hok. rewrite Hok in Hres. intros sd k.
    apply dense_exact, Hres.
  - intros i (sd & Hi & Hnone).
    destruct (result (send_all_orders H o)) as [[]|e].
    + destruct (Hres sd i Hi) as [x Hx]. rewrite Hnone in Hx. discriminate.
    + destruct Hres as (j & -> & Hmiss & Hleast). exists j.
      split; [reflexivity|]. split; [assumption|]. split; [|assumption].
      destruct (Z.le_gt_cases j i) as [Hle|Hgt]; [assumption|].
      exfalso. apply (Hleast i); [lia|]. exists sd. split; assumption.
Qed.

End SendAll.

(** ** [refresh_all_orders] *)

Section RefreshAll.

Context {Ext : Type} (H : @Hooks Ext).

Implicit Types (o : @Obj Ext) (sd : BookSide) (i k : Z).

Lemma check_and_process_eq st o :
  check_and_process H st o =
  let c := check_order_fills H o in
  mkOut (Ok tt)
    (if fst c then process_order_fill H (snd c) else snd c)
    (EvCheckOrderFills st (fst c)
       :: if fst c then [EvProcessOrderFill st] else []).
Proof.
  unfold check_and_process, bind, call, call_, ret. cbn [result final events].
  destruct (fst (check_order_fills H o)); reflexivity.
Qed.

Lemma refresh_all_orders_eq o :
  refresh_all_orders H o =
  match symbol o with
  | None => mkOut (Raise (AttributeError "symbol")) o [EvRefreshAllOrders]
  | Some sym =>
      let d := delete_all_orders H sym true 1 o in
      if fst d then
        let cp := check_and_process H InRefreshAll (snd d) in
        let s := send_all_orders H (set_order_levels H (final cp)) in
        mkOut (result s) (final s)
          (EvRefreshAllOrders :: EvDeleteAllOrders sym true 1 true
             :: events cp ++ EvSetOrderLevels :: events s)
      else
        mkOut (Raise (Exception "Error Deleting All Orders")) (snd d)
          [EvRefreshAllOrders; EvDeleteAllOrders sym true 1 false]
  end.
Proof.
  unfold refresh_all_orders, bind, emit, getattr, call, call_, ret, raise.
  cbn [result final events].
  destruct (symbol o) as [sym|]; [|reflexivity]. cbn [result final events].
  destruct (fst (delete_all_orders H sym true 1 o)); [|reflexivity].
  cbn [result final events]. rewrite check_and_process_eq.
  cbv zeta. cbn [result final events].
  destruct (result (send_all_orders H _)); cbn [result final events];
    rewrite <- ?app_assoc; reflexivity.
Qed.

(** C3: on an instance without the attribute [symbol] (the attributes
    that [__init__] sets do not include it), [refresh_all_orders] raises
    [AttributeError] on [symbol]; it has called no method of the child class
    by then, [delete_all_orders] included, and the instance is as it was. *)
Theorem refresh_all_orders_without_symbol o :
  symbol o = None ->
  result (refresh_all_orders H o) = Raise (AttributeError "symbol") /\
  final (refresh_all_orders H o) = o /\
  events (refresh_all_orders H o) = [EvRefreshAllOrders] /\
  (forall sym v n b,
     EvDeleteAllOrders sym v n b ∉ events (refresh_all_orders H o)).
Proof.
  intros Hs. rewrite refresh_all_orders_eq, Hs. cbn [result final events].
  repeat split. intros sym v n b Hin.
  apply list_elem_of_singleton in Hin. discriminate.
Qed.

(** C2: when [delete_all_orders], called with [verify=True] and
    [retries=1], returns [False], [refresh_all_orders] raises its exception
    right away: no level is set and nothing is resent. *)
Theorem refresh_all_orders_cancel_failed o sym :
  symbol o = Some sym ->
  fst (delete_all_orders H sym true 1 o) = false ->
  result (refresh_all_orders H o)
    = Raise (Exception "Error Deleting All Orders") /\
  events (refresh_all_orders H o)
    = [EvRefreshAllOrders; EvDeleteAllOrders sym true 1 false] /\
  (EvSetOrderLevels ∉ events (refresh_all_orders H o)) /\
  (EvSendAllOrders ∉ events (refresh_all_orders H o)) /\
  (forall sd i kw v r,
     EvSendLimitOrder sd i kw v r ∉ events (refresh_all_orders H o)).
Proof.
  intros Hs Hd. rewrite refresh_all_orders_eq, Hs. cbv zeta. rewrite Hd.
  cbn [result final events]. repeat split.
  all: try intros sd i kw v r.
  all: intros Hin; repeat (apply elem_of_cons in Hin as [Hin|Hin];
                           [discriminate|]).
  all: apply elem_of_nil in Hin; contradiction.
Qed.

(** C4: when the bulk cancellation succeeds, the calls of
    [refresh_all_orders] are, in this order: the cancellation, the fill
    check, the fill processing when the check returned [True], then
    [set_order_levels], then [send_all_orders], which only iterates and
    submits. *)
Theorem refresh_all_orders_order o sym :
  symbol o = Some sym ->
  fst (delete_all_orders H sym true 1 o) = true ->
  let o1 := snd (delete_all_orders H sym true 1 o) in
  let filled := fst (check_order_fills H o1) in
  let o2 := snd (check_order_fills H o1) in
  let o3 := if filled then process_order_fill H o2 else o2 in
  let o4 := set_order_levels H o3 in
  events (refresh_all_orders H o) =
    [EvRefreshAllOrders; EvDeleteAllOrders sym true 1 true;
     EvCheckOrderFills InRefreshAll filled]
    ++ (if filled then [EvProcessOrderFill InRefreshAll] else [])
    ++ [EvSetOrderLevels] ++ events (send_all_orders H o4) /\
  result (refresh_all_orders H o) = result (send_all_orders H o4) /\
  final (refresh_all_orders H o) = final (send_all_orders H o4) /\
  exists evs,
    events (send_all_orders H o4) = EvSendAllOrders :: evs /\
    Forall loop_event evs.
Proof.
  intros Hs Hd. cbv zeta. rewrite refresh_all_orders_eq, Hs. cbv zeta.
  rewrite Hd, check_and_process_eq. cbv zeta. cbn [result final events].
  split; [|split; [reflexivity|split; [reflexivity|]]].
  - destruct (fst (check_order_fills H _)); reflexivity.
  - destruct (send_all_orders_events H
                (set_order_levels H
                   (if fst (check_order_fills H
                              (snd (delete_all_orders H sym true 1 o)))
                    then process_order_fill H
                           (snd (check_order_fills H
                                   (snd (delete_all_orders H sym true 1 o))))
                    else snd (check_order_fills H
                                (snd (delete_all_orders H sym true 1 o))))))
      as (evs & Hev & Hall & _).
    exists evs. split; assumption.
Qed.

Lemma same_active_side o o' sd :
  same_active o o' -> active sd o' = active sd o.
Proof. intros [Ha Hb]. destruct sd; assumption. Qed.

(** C5, as the class has it: no key is ever removed from a dictionary of
    active orders.  After [refresh_all_orders], every key at or above the
    new level count of its side has the binding it had before the call, so
    the keys of a larger previous level set stay; this when the methods of
    the child class leave these dictionaries alone themselves. *)
Theorem refresh_all_orders_keeps_stale_keys o sd k :
  keeps_levels H -> keeps_active H -> refresh_keeps_active H ->
  Z.of_nat (size (levels sd (final (refresh_all_orders H o)))) <= k ->
  active sd (final (refresh_all_orders H o)) !! k = active sd o !! k.
Proof.
  intros Hkl Hka (Hdel & Hchk & Hproc & Hset).
  rewrite refresh_all_orders_eq.
  destruct (symbol o) as [sym|]; [|reflexivity]. cbv zeta.
  pose proof (Hdel sym true 1 o) as Hd.
  destruct (fst (delete_all_orders H sym true 1 o)).
  - rewrite check_and_process_eq. cbv zeta. cbn [result final events].
    set (o1 := snd (delete_all_orders H sym true 1 o)) in *.
    pose proof (Hchk o1) as Hc.
    set (o2 := snd (check_order_fills H o1)) in *.
    set (o3 := if fst (check_order_fills H o1)
               then process_order_fill H o2 else o2).
    assert (H3 : same_active o2 o3).
    { subst o3. destruct (fst (check_order_fills H o1));
        [apply Hproc | split; reflexivity]. }
    pose proof (Hset o3) as H4.
    rewrite send_all_orders_levels by assumption. intros Hk.
    destruct (send_all_orders_active H (set_order_levels H o3) Hka) as [Hout _].
    rewrite Hout by (right; assumption).
    rewrite (same_active_side _ _ sd H4), (same_active_side _ _ sd H3),
      (same_active_side _ _ sd Hc), (same_active_side _ _ sd Hd).
    reflexivity.
  - cbn [final]. intros _. rewrite (same_active_side _ _ sd Hd). reflexivity.
Qed.

Lemma refresh_all_orders_events o :
  Forall refresh_event (events (refresh_all_orders H o)) /\
  process_follows_check (events (refresh_all_orders H o)).
Proof.
  rewrite refresh_all_orders_eq.
  destruct (symbol o) as [sym|].
  2:{ split; [repeat constructor|]. intros st Hin.
      apply list_elem_of_singleton in Hin. discriminate. }
  cbv zeta. destruct (fst (delete_all_orders H sym true 1 o)).
  2:{ split; [repeat constructor|]. intros st Hin.
      repeat (apply elem_of_cons in Hin as [Hin|Hin]; [discriminate|]).
      apply elem_of_nil in Hin. contradiction. }
  rewrite check_and_process_eq. cbv zeta. cbn [result final events].
  match goal with
  | |- context [send_all_orders H ?x] =>
      destruct (send_all_orders_events H x) as (evs & -> & Hall & _)
  end.
  assert (Hloop : forall e, e ∈ evs -> loop_event e).
  { apply Forall_forall. assumption. }
  split.
  - repeat (apply Forall_cons; split; [exact I|]).
    apply Forall_app. split.
    + destruct (fst (check_order_fills H _)); repeat constructor.
    + repeat (apply Forall_cons; split; [exact I|]).
      apply Forall_forall. intros e He. specialize (Hloop e He).
      destruct e; try contradiction; exact I.
  - intros st Hin.
    destruct (fst (check_order_fills H _)); simpl in Hin.
    + repeat (apply elem_of_cons in Hin as [Hin|Hin];
              [try discriminate|]).
      * injection Hin as ->.
        exists [EvRefreshAllOrders; EvDeleteAllOrders sym true 1 true].
        eexists. reflexivity.
      * specialize (Hloop _ Hin). contradiction.
    + repeat (apply elem_of_cons in Hin as [Hin|Hin];
              [try discriminate|]).
      specialize (Hloop _ Hin). contradiction.
Qed.

End RefreshAll.

(** ** The loop of [run] *)

Section Run.

Context {Ext : Type} (H : @Hooks Ext).

Implicit Types (o : @Obj Ext) (sd : BookSide) (i k : Z).

Lemma run_iteration_eq o :
  run_iteration H o =
  let q := order_refresh_needed H o in
  let ev := EvOrderRefreshNeeded (fst (fst q)) (snd (fst q)) in
  if snd (fst q) then
    let r := refresh_all_orders H (snd q) in
    mkOut (match result r with
           | Ok _ => Ok (false, false)
           | Raise e => Raise e
           end)
          (final r) (ev :: events r)
  else if fst (fst q) then
    mkOut (Ok (false, false)) (refresh_individual_orders H (snd q))
          [ev; EvRefreshIndividualOrders]
  else
    let cp := check_and_process H InRun (snd q) in
    mkOut (Ok (false, false)) (final cp) (ev :: events cp).
Proof.
  unfold run_iteration, bind, call, call_, ret. cbn [result final events].
  destruct (order_refresh_needed H o) as [[ri ra] o1]. cbn [fst snd].
  destruct ra, ri; cbn [negb andb result final events].
  - destruct (result (refresh_all_orders H o1)); cbn [result final events];
      rewrite ?app_nil_r; reflexivity.
  - destruct (result (refresh_all_orders H o1)); cbn [result final events];
      rewrite ?app_nil_r; reflexivity.
  - reflexivity.
  - rewrite check_and_process_eq. cbv zeta. cbn [result final events].
    rewrite app_nil_r. reflexivity.
Qed.

(** C6: in an iteration where [order_refresh_needed] returns [(True,
    True)], the iteration is the bulk refresh: its calls, the instance it
    leaves and its exception, if any, are those of [refresh_all_orders] run
    on the instance as the query of the flags left it;
    [refresh_individual_orders] is not called, and an iteration that ends
    leaves both flags [False]. *)
Theorem run_iteration_refresh_all_first o :
  fst (order_refresh_needed H o) = (true, true) ->
  events (run_iteration H o) =
    EvOrderRefreshNeeded true true
      :: events (refresh_all_orders H (snd (order_refresh_needed H o))) /\
  final (run_iteration H o)
    = final (refresh_all_orders H (snd (order_refresh_needed H o))) /\
  result (run_iteration H o)
    = match result (refresh_all_orders H (snd (order_refresh_needed H o))) with
      | Ok _ => Ok (false, false)
      | Raise e => Raise e
      end /\
  EvRefreshAllOrders ∈ events (run_iteration H o) /\
  (EvRefreshIndividualOrders ∉ events (run_iteration H o)) /\
  (forall flags, result (run_iteration H o) = Ok flags -> flags = (false, false)).
Proof.
  intros Hq. rewrite run_iteration_eq. cbv zeta. rewrite Hq.
  cbn [fst snd result final events].
  destruct (refresh_all_orders_events H (snd (order_refresh_needed H o)))
    as [Hall _].
  split; [reflexivity|]. split; [reflexivity|]. split; [reflexivity|].
  split; [|split].
  - apply list_elem_of_further. rewrite refresh_all_orders_eq.
    destruct (symbol _); [cbv zeta; destruct (fst (delete_all_orders _ _ _ _ _))|];
      apply list_elem_of_here.
  - intros Hin. apply elem_of_cons in Hin as [Hin|Hin]; [discriminate|].
    rewrite Forall_forall in Hall. exact (Hall _ Hin).
  - intros flags Hr.
    destruct (result (refresh_all_orders H _)); [|discriminate].
    injection Hr as <-. reflexivity.
Qed.

Lemma run_iteration_fill_events o :
  ((exists b, EvCheckOrderFills InRun b ∈ events (run_iteration H o)) <->
   fst (order_refresh_needed H o) = (false, false)) /\
  (EvProcessOrderFill InRun ∈ events (run_iteration H o) <->
   EvCheckOrderFills InRun true ∈ events (run_iteration H o)) /\
  process_follows_check (events (run_iteration H o)).
Proof.
  rewrite run_iteration_eq. cbv zeta.
  destruct (order_refresh_needed H o) as [[ri ra] o1]. cbn [fst snd].
  destruct ra; [|destruct ri].
  - (* the bulk refresh *)
    cbn [events].
    destruct (refresh_all_orders_events H o1) as [Hall Hpfc].
    rewrite Forall_forall in Hall.
    assert (Hno : forall e, e ∈ EvOrderRefreshNeeded ri true
                               :: events (refresh_all_orders H o1) ->
                            refresh_event e \/ e = EvOrderRefreshNeeded ri true).
    { intros e He. apply elem_of_cons in He as [->|He]; [right; reflexivity|].
      left. apply Hall. assumption. }
    split; [|split].
    + split; [|intros Hf; destruct ri; discriminate].
      intros [b Hin]. destruct (Hno _ Hin) as [Hf|Hf];
        [contradiction | discriminate].
    + split; intros Hin; destruct (Hno _ Hin) as [Hf|Hf];
        try contradiction; discriminate.
    + intros st Hin. apply elem_of_cons in Hin as [Hin|Hin]; [discriminate|].
      destruct (Hpfc st Hin) as (t1 & t2 & Heq).
      exists (EvOrderRefreshNeeded ri true :: t1), t2. rewrite Heq. reflexivity.
  - (* the refresh of individual orders *)
    cbn [events]. split; [|split].
    + split; [|discriminate]. intros [b Hin].
      repeat (apply elem_of_cons in Hin as [Hin|Hin]; [discriminate|]).
      apply elem_of_nil in Hin. contradiction.
    + split; intros Hin;
        repeat (apply elem_of_cons in Hin as [Hin|Hin]; [discriminate|]);
        apply elem_of_nil in Hin; contradiction.
    + intros st Hin.
      repeat (apply elem_of_cons in Hin as [Hin|Hin]; [discriminate|]).
      apply elem_of_nil in Hin. contradiction.
  - (* no refresh: the fill check of the loop *)
    rewrite check_and_process_eq. cbv zeta. cbn [events].
    destruct (fst (check_order_fills H o1)).
    + split; [|split].
      * split; [reflexivity|]. intros _. exists true.
        apply list_elem_of_further, list_elem_of_here.
      * split; intros _.
        -- apply list_elem_of_further, list_elem_of_here.
        -- do 2 apply list_elem_of_further. apply list_elem_of_here.
      * intros st Hin.
        repeat (apply elem_of_cons in Hin as [Hin|Hin]; [try discriminate|]).
        -- injection Hin as ->.
           exists [EvOrderRefreshNeeded false false], []. reflexivity.
        -- apply elem_of_nil in Hin. contradiction.
    + split; [|split].
      * split; [reflexivity|]. intros _. exists false.
        apply list_elem_of_further, list_elem_of_here.
      * split; intros Hin;
          repeat (apply elem_of_cons in Hin as [Hin|Hin]; [discriminate|]);
          apply elem_of_nil in Hin; contradiction.
      * intros st Hin.
        repeat (apply elem_of_cons in Hin as [Hin|Hin]; [discriminate|]).
        apply elem_of_nil in Hin. contradiction.
Qed.

(** C7: when [order_refresh_needed] returned [False] for both flags, the
    iteration calls [check_order_fills] on the instance as the query left
    it, then [process_order_fill] if and only if the check returned [True],
    and nothing else; when a flag is set, the iteration goes from the query
    straight to the refresh, with no fill check or fill processing of its
    own.  So the fill check of the loop is made exactly when both flags are
    [False], and, wherever it is called from, a fill processing comes right
    after a fill check that returned [True]. *)
Theorem run_iteration_fill_check o :
  (fst (order_refresh_needed H o) = (false, false) ->
   events (run_iteration H o) =
     EvOrderRefreshNeeded false false
       :: EvCheckOrderFills InRun
            (fst (check_order_fills H (snd (order_refresh_needed H o))))
       :: (if fst (check_order_fills H (snd (order_refresh_needed H o)))
           then [EvProcessOrderFill InRun] else []) /\
   final (run_iteration H o) =
     (if fst (check_order_fills H (snd (order_refresh_needed H o)))
      then process_order_fill H
             (snd (check_order_fills H (snd (order_refresh_needed H o))))
      else snd (check_order_fills H (snd (order_refresh_needed H o)))) /\
   result (run_iteration H o) = Ok (false, false)) /\
  (fst (order_refresh_needed H o) <> (false, false) ->
   events (run_iteration H o) =
     EvOrderRefreshNeeded (fst (fst (order_refresh_needed H o)))
                          (snd (fst (order_refresh_needed H o)))
       :: (if snd (fst (order_refresh_needed H o))
           then events (refresh_all_orders H (snd (order_refresh_needed H o)))
           else [EvRefreshIndividualOrders]) /\
   final (run_iteration H o) =
     (if snd (fst (order_refresh_needed H o))
      then final (refresh_all_orders H (snd (order_refresh_needed H o)))
      else refresh_individual_orders H (snd (order_refresh_needed H o)))) /\
  ((exists b, EvCheckOrderFills InRun b ∈ events (run_iteration H o)) <->
   fst (order_refresh_needed H o) = (false, false)) /\
  (EvProcessOrderFill InRun ∈ events (run_iteration H o) <->
   EvCheckOrderFills InRun true ∈ events (run_iteration H o)) /\
  process_follows_check (events (run_iteration H o)).
Proof.
  split; [|split; [|exact (run_iteration_fill_events o)]].
  - intros Hq. rewrite run_iteration_eq. cbv zeta. rewrite Hq.
    cbn [fst snd]. rewrite check_and_process_eq. cbv zeta.
    cbn [result final events]. repeat split.
  - intros Hq. rewrite run_iteration_eq. cbv zeta.
    destruct (order_refresh_needed H o) as [[ri ra] o1]. cbn [fst snd] in *.
    destruct ra; [split; reflexivity|].
    destruct ri; [split; reflexivity|].
    exfalso. apply Hq. reflexivity.
Qed.

(** *** One handle per level, per side *)









End Run.

(** ** The class on concrete instances *)

Lemma fixed_hooks_keep_levels fills deleted flags sends asks bids :
  keeps_levels (fixed_hooks fills deleted flags sends asks bids).
Proof. intros kw v o. split; reflexivity. Qed.

Lemma fixed_hooks_keep_active fills deleted flags sends asks bids :
  keeps_active (fixed_hooks fills deleted flags sends asks bids).
Proof. intros kw v o. split; reflexivity. Qed.

Lemma fixed_hooks_refresh_keeps_active fills deleted flags sends asks bids :
  refresh_keeps_active (fixed_hooks fills deleted flags sends asks bids).
Proof. repeat split. Qed.

Lemma dense_three_asks : dense three_asks.
Proof.
  intros i Hi. change (Z.of_nat (size three_asks)) with 3 in Hi.
  assert (Hc : i = 0 \/ i = 1 \/ i = 2) by lia.
  destruct Hc as [->|[->| ->]]; eexists; vm_compute; reflexivity.
Qed.

Lemma dense_one_bid : dense one_bid.
Proof.
  intros i Hi. change (Z.of_nat (size one_bid)) with 1 in Hi.
  assert (Hc : i = 0) by lia. subst i. eexists. vm_compute. reflexivity.
Qed.

(** A submission that fails leaves the key with the empty string (C1). *)
Lemma failed_send_is_stored_witness :
  active Ask (final (send_all_orders sends_fail (an_instance one_ask ∅ ∅ ∅))) !! 0
  = Some EmptyString.
Proof.
  apply (failed_send_is_stored sends_fail (an_instance one_ask ∅ ∅ ∅)
           Ask 0 (a_level "n0") false).
  - apply fixed_hooks_keep_active.
  - vm_compute. do 2 apply list_elem_of_further. apply list_elem_of_here.
Defined.

(** C1 as it is stated fails: the key of the failed level is present. *)
Lemma no_phantom_handle_fails :
  ~ no_phantom_handle sends_fail (an_instance one_ask ∅ ∅ ∅).
Proof.
  intros Hc.
  assert (Hr : result (send_all_orders sends_fail (an_instance one_ask ∅ ∅ ∅))
               = Ok tt) by (vm_compute; reflexivity).
  specialize (Hc Hr Ask 0 (a_level "n0") false).
  assert (Hin : EvSendLimitOrder Ask 0 (a_level "n0") false EmptyString
                ∈ events (send_all_orders sends_fail
                            (an_instance one_ask ∅ ∅ ∅))).
  { vm_compute. do 2 apply list_elem_of_further. apply list_elem_of_here. }
  specialize (Hc Hin). vm_compute in Hc. discriminate Hc.
Qed.

(** A failed bulk cancellation stops the refresh (C2). *)
Lemma refresh_all_orders_cancel_failed_witness :
  result (refresh_all_orders cancel_fails fresh_book)
    = Raise (Exception "Error Deleting All Orders") /\
  events (refresh_all_orders cancel_fails fresh_book)
    = [EvRefreshAllOrders; EvDeleteAllOrders "BTC-USD" true 1 false].
Proof.
  destruct (refresh_all_orders_cancel_failed cancel_fails fresh_book "BTC-USD")
    as (Hr & He & _); [reflexivity | reflexivity |].
  split; assumption.
Defined.

(** An instance just made by the constructor cannot be refreshed (C3). *)
Lemma refresh_all_orders_without_symbol_witness :
  result (refresh_all_orders shrinking (init "BTC" "USD" "BTC-USD" tt))
    = Raise (AttributeError "symbol") /\
  final (refresh_all_orders shrinking (init "BTC" "USD" "BTC-USD" tt))
    = init "BTC" "USD" "BTC-USD" tt.
Proof.
  destruct (refresh_all_orders_without_symbol shrinking
              (init "BTC" "USD" "BTC-USD" tt)) as (Hr & Hf & _);
    [reflexivity|].
  split; assumption.
Defined.

(** The calls of a refresh that succeeds, with fills (C4). *)
Lemma refresh_all_orders_order_witness :
  events (refresh_all_orders shrinking sent_book) =
    [EvRefreshAllOrders; EvDeleteAllOrders "BTC-USD" true 1 true;
     EvCheckOrderFills InRefreshAll true; EvProcessOrderFill InRefreshAll;
     EvSetOrderLevels; EvSendAllOrders; EvIteration 0;
     EvSendLimitOrder Ask 0 (a_level "n0") false "n0"].
Proof.
  destruct (refresh_all_orders_order shrinking sent_book "BTC-USD")
    as (He & _); [reflexivity | reflexivity |].
  rewrite He. vm_compute. reflexivity.
Defined.

(** After a refresh from three ask levels to one, key 2 is still bound
    (C5). *)
Lemma refresh_all_orders_keeps_stale_keys_witness :
  active Ask (final (refresh_all_orders shrinking sent_book)) !! 2
  = Some "a2".
Proof.
  rewrite (refresh_all_orders_keeps_stale_keys shrinking sent_book Ask 2).
  - vm_compute. reflexivity.
  - apply fixed_hooks_keep_levels.
  - apply fixed_hooks_keep_active.
  - apply fixed_hooks_refresh_keeps_active.
  - vm_compute. discriminate.
Defined.

(** C5 as it is stated fails: key 2 is above the new count, 1. *)
Lemma stale_keys_removed_fails : ~ stale_keys_removed shrinking sent_book.
Proof.
  intros Hc.
  assert (Hr : result (refresh_all_orders shrinking sent_book) = Ok tt)
    by (vm_compute; reflexivity).
  specialize (Hc Hr Ask 2).
  assert (Hlt : Z.of_nat (size (levels Ask
                  (final (refresh_all_orders shrinking sent_book)))) < 2)
    by (vm_compute; reflexivity).
  specialize (Hc Hlt). vm_compute in Hc. discriminate Hc.
Qed.

(** Both flags set: the iteration is the bulk refresh (C6). *)
Lemma run_iteration_refresh_all_first_witness :
  final (run_iteration shrinking sent_book)
    = final (refresh_all_orders shrinking sent_book) /\
  result (run_iteration shrinking sent_book) = Ok (false, false) /\
  EvRefreshAllOrders ∈ events (run_iteration shrinking sent_book) /\
  (EvRefreshIndividualOrders ∉ events (run_iteration shrinking sent_book)).
Proof.
  destruct (run_iteration_refresh_all_first shrinking sent_book)
    as (_ & Hf & Hr & Hin & Hnin & _); [reflexivity|].
  split; [exact Hf|]. split; [rewrite Hr; vm_compute; reflexivity|].
  split; assumption.
Defined.



(** Three ask levels and one bid level: three iterations, a bid in the
    first one only (C9). *)
Lemma send_all_orders_iterations_witness :
  iterations_of (events (send_all_orders shrinking fresh_book)) = [0; 1; 2] /\
  (submitted Bid 0 (events (send_all_orders shrinking fresh_book)) <-> 0 < 1) /\
  (submitted Bid 1 (events (send_all_orders shrinking fresh_book)) <-> 1 < 1) /\
  (submitted Bid 2 (events (send_all_orders shrinking fresh_book)) <-> 2 < 1).
Proof.
  destruct (send_all_orders_iterations shrinking fresh_book)
    as [(Hit & Hsub & _) _].
  - apply fixed_hooks_keep_levels.
  - apply fixed_hooks_keep_active.
  - exact dense_three_asks.
  - exact dense_one_bid.
  - split; [exact Hit|].
    split; [|split]; apply Hsub; vm_compute;
      repeat (first [apply list_elem_of_here | apply list_elem_of_further]).
Defined.

(** C9 as it is stated fails on level dictionaries without the key 0: two
    ask levels under the keys 1 and 2 give one iteration, not two. *)
Lemma iterates_max_times_fails :
  ~ iterates_max_times shrinking (an_instance shifted_asks ∅ ∅ ∅).
Proof.
  intros [Hit _]. vm_compute in Hit. discriminate Hit.
Qed.

(** Two ask levels under the keys 1 and 2 are rejected at index 0 (C10). *)
Lemma send_all_orders_rejects_sparse_witness :
  exists j,
    result (send_all_orders shrinking (an_instance shifted_asks ∅ ∅ ∅))
    = Raise (KeyError j) /\ 0 <= j <= 0.
Proof.
  destruct (send_all_orders_rejects_sparse shrinking
              (an_instance shifted_asks ∅ ∅ ∅)) as [_ Hmiss].
  - apply fixed_hooks_keep_levels.
  - destruct (Hmiss 0) as (j & Hr & (sd & Hj & _) & Hle & _).
    + exists Ask. split; [vm_compute; split; [discriminate | reflexivity]|].
      vm_compute. reflexivity.
    + exists j. split; [exact Hr | lia].
Defined.

(** C10 as it is stated fails when two indices are missing: with two ask
    levels under the keys 2 and 3, index 1 is missing and the error is
    raised on index 0. *)
Lemma rejects_each_missing_fails :
  ~ rejects_each_missing shrinking (an_instance far_asks ∅ ∅ ∅).
Proof.
  intros [_ Hc].
  assert (Hm : missing (an_instance far_asks ∅ ∅ ∅) 1).
  { exists Ask. split; [vm_compute; split; [discriminate | reflexivity]|].
    vm_compute. reflexivity. }
  specialize (Hc 1 Hm). vm_compute in Hc. discriminate Hc.
Qed.

(** ** More on [send_all_orders] *)

Section MoreSendAll.

Context {Ext : Type} (H : @Hooks Ext).

Implicit Types (o : @Obj Ext) (sd : BookSide) (i k : Z).

Ltac body_cases na nb i o :=
  rewrite (send_body_eq H na nb i o); cbv zeta;
  destruct (send_if_cases H na Ask i o)
    as [[Ha Ea]|[(Ha & Hka & Ea)|(Ha & kwa & Hka & Ea)]];
  rewrite Ea; cbn [result final events];
  try (destruct (send_if_cases H nb Bid i
                   (set_active Ask i
                      (fst (send_limit_order H kwa false o))
                      (snd (send_limit_order H kwa false o))))
        as [[Hb Eb]|[(Hb & Hkb & Eb)|(Hb & kwb & Hkb & Eb)]];
       rewrite Eb; cbn [result final events]);
  try (destruct (send_if_cases H nb Bid i o)
        as [[Hb Eb]|[(Hb & Hkb & Eb)|(Hb & kwb & Hkb & Eb)]];
       rewrite Eb; cbn [result final events]).

Lemma submissions_of_app (a b : list Event) :
  submissions_of (a ++ b) = submissions_of a ++ submissions_of b.
Proof.
  induction a as [|e a IH]; [reflexivity|].
  destruct e; simpl; rewrite IH; reflexivity.
Qed.


(** What one iteration submits: all it planned when it completes, and
    otherwise nothing or the ask alone, before a [KeyError] at its index. *)
Lemma send_body_submissions na nb i o :
  match result (send_body H na nb i o) with
  | Ok _ => submissions_of (events (send_body H na nb i o)) = planned na nb i
  | Raise e =>
      e = KeyError i /\
      (submissions_of (events (send_body H na nb i o)) = [] \/
       submissions_of (events (send_body H na nb i o)) = [(Ask, i)])
  end.
Proof.
  unfold planned. body_cases na nb i o; simpl.
  all: try (split; [reflexivity|]; first [left; reflexivity | right; reflexivity]).
  all: destruct (Z.ltb_spec i na); destruct (Z.ltb_spec i nb);
       try lia; reflexivity.
Qed.

Lemma send_loop_submissions na nb l o :
  match result (for_each l (send_body H na nb) o) with
  | Ok _ =>
      submissions_of (events (for_each l (send_body H na nb) o))
      = flat_map (planned na nb) l
  | Raise e =>
      exists done i rest,
        l = done ++ i :: rest /\ e = KeyError i /\
        (submissions_of (events (for_each l (send_body H na nb) o))
         = flat_map (planned na nb) done \/
         submissions_of (events (for_each l (send_body H na nb) o))
         = flat_map (planned na nb) done ++ [(Ask, i)])
  end.
Proof.
  pose proof (for_each_rule (send_body H na nb) l
    (fun done _ evs => submissions_of evs = flat_map (planned na nb) done)
    (fun done i e _ evs =>
       e = KeyError i /\
       (submissions_of evs = flat_map (planned na nb) done \/
        submissions_of evs = flat_map (planned na nb) done ++ [(Ask, i)]))
    o eq_refl) as Hrule.
  lapply Hrule; clear Hrule.
  2:{ intros done i rest o' evs _ Hsub.
      pose proof (send_body_submissions na nb i o') as Hb.
      rewrite submissions_of_app, Hsub.
      destruct (result (send_body H na nb i o')) as [[]|e].
      - rewrite Hb, flat_map_app. simpl. rewrite app_nil_r. reflexivity.
      - destruct Hb as [-> [Hb|Hb]]; rewrite Hb; (split; [reflexivity|]).
        + left. apply app_nil_r.
        + right. reflexivity. }
  intros Hrule.
  destruct (result (for_each l (send_body H na nb) o)) as [[]|e];
    [exact Hrule|].
  destruct Hrule as (done & i & rest & Hl & He & Hsub).
  exists done, i, rest. repeat split; assumption.
Qed.

(** X1: [send_all_orders] starts no iteration exactly when both level
    dictionaries are empty, and then it returns with the instance as it
    was, having called nothing. *)
Theorem send_all_orders_nothing_planned o :
  (events (send_all_orders H o) = [EvSendAllOrders] <->
   ask_levels o = ∅ /\ bid_levels o = ∅) /\
  (ask_levels o = ∅ -> bid_levels o = ∅ ->
   result (send_all_orders H o) = Ok tt /\ final (send_all_orders H o) = o).
Proof.
  assert (Hempty : ask_levels o = ∅ -> bid_levels o = ∅ ->
                   send_all_orders H o = mkOut (Ok tt) o [EvSendAllOrders]).
  { intros Ha Hb. rewrite send_all_orders_eq. cbv zeta.
    rewrite Ha, Hb, map_size_empty. reflexivity. }
  split; [split|].
  - intros Hev. rewrite send_all_orders_eq in Hev. cbv zeta in Hev.
    cbn [events] in Hev. injection Hev as Hev.
    destruct (Z.max_spec (Z.of_nat (size (ask_levels o)))
                         (Z.of_nat (size (bid_levels o)))) as [[_ Hm]|[_ Hm]];
      rewrite Hm in Hev.
    all: match type of Hev with
         | events (for_each (range ?n) _ _) = [] =>
             destruct (Z.lt_ge_cases 0 n) as [Hpos|Hle]
         end.
    all: try (exfalso; unfold range in Hev; rewrite seqZ_cons in Hev by lia;
              simpl in Hev; unfold bind in Hev;
              match type of Hev with
              | context [send_body H ?a ?b 0 ?o'] =>
                  destruct (send_body_events H a b 0 o') as (sends & Hs & _);
                  destruct (result (send_body H a b 0 o'));
                  cbn [events] in Hev; rewrite Hs in Hev; discriminate Hev
              end).
    all: split; apply map_size_empty_inv; lia.
  - intros [Ha Hb]. rewrite (Hempty Ha Hb). reflexivity.
  - intros Ha Hb. rewrite (Hempty Ha Hb). split; reflexivity.
Qed.

Lemma send_all_orders_kwargs o sd i kw v r :
  keeps_levels H ->
  EvSendLimitOrder sd i kw v r ∈ events (send_all_orders H o) ->
  v = false /\ levels sd o !! i = Some kw.
Proof.
  intros Hk Hin. rewrite send_all_orders_eq in Hin. cbv zeta in Hin.
  cbn [events] in Hin.
  apply elem_of_cons in Hin as [Hin|Hin]; [discriminate|]. split.
  - destruct (send_loop_events H
                (Z.of_nat (size (ask_levels o))) (Z.of_nat (size (bid_levels o)))
                (range (Z.max (Z.of_nat (size (ask_levels o)))
                              (Z.of_nat (size (bid_levels o))))) o)
      as (Hall & _).
    rewrite Forall_forall in Hall. exact (Hall _ Hin).
  - eapply (send_loop_levels H); eassumption.
Qed.

(** X2: every submission of [send_all_orders] is made without verification,
    for a level index below the count of its side, and with the keyword
    arguments stored under that index. *)
Theorem send_all_orders_sends_as_planned o sd i kw v r :
  keeps_levels H ->
  EvSendLimitOrder sd i kw v r ∈ events (send_all_orders H o) ->
  v = false /\ 0 <= i < Z.of_nat (size (levels sd o)) /\
  levels sd o !! i = Some kw.
Proof.
  intros Hk Hin.
  destruct (send_all_orders_kwargs o sd i kw v r Hk Hin) as [Hv Hkw].
  split; [exact Hv|]. split; [|exact Hkw].
  destruct (send_all_orders_events H o) as (evs & Hev & _ & Hidx & _).
  rewrite Hev in Hin.
  apply elem_of_cons in Hin as [Hin|Hin]; [discriminate|].
  eapply Hidx. eassumption.
Qed.

Lemma send_all_orders_bound o sd i :
  keeps_levels H -> keeps_active H ->
  (forall sd', dense (levels sd' o)) ->
  0 <= i < Z.of_nat (size (levels sd o)) ->
  exists kw r,
    levels sd o !! i = Some kw /\
    EvSendLimitOrder sd i kw false r ∈ events (send_all_orders H o) /\
    active sd (final (send_all_orders H o)) !! i = Some r.
Proof.
  intros Hkl Hka Hd Hi.
  pose proof (send_all_orders_dense_ok H o Hkl Hd) as Hok.
  destruct (send_all_orders_events H o) as (evs & Hev & _ & _ & Hsub).
  destruct (Hsub Hok) as [_ Hall].
  destruct (Hall sd i Hi) as (kw & v & r & Hin).
  assert (Hin' : EvSendLimitOrder sd i kw v r ∈ events (send_all_orders H o)).
  { rewrite Hev. apply list_elem_of_further. assumption. }
  destruct (send_all_orders_kwargs o sd i kw v r Hkl Hin') as (-> & Hkw).
  exists kw, r. split; [assumption|]. split; [assumption|].
  destruct (send_all_orders_active H o Hka) as [_ Hset].
  eapply Hset. eassumption.
Qed.

(** X3: on level dictionaries with all their keys [0 .. len-1], and when
    [send_limit_order] leaves the level dictionaries and the dictionaries of
    active orders alone, [send_all_orders] returns and every level of each
    side has been submitted with its own keyword arguments, its key now
    bound to what that submission returned. *)
Theorem send_all_orders_binds_every_level o sd i :
  keeps_levels H -> keeps_active H ->
  dense (ask_levels o) -> dense (bid_levels o) ->
  0 <= i < Z.of_nat (size (levels sd o)) ->
  result (send_all_orders H o) = Ok tt /\
  exists kw r,
    levels sd o !! i = Some kw /\
    EvSendLimitOrder sd i kw false r ∈ events (send_all_orders H o) /\
    active sd (final (send_all_orders H o)) !! i = Some r.
Proof.
  intros Hkl Hka Hda Hdb Hi.
  assert (Hd : forall sd', dense (levels sd' o)) by (intros []; assumption).
  split.
  - apply send_all_orders_dense_ok; assumption.
  - apply send_all_orders_bound; assumption.
Qed.

(** X4: on level dictionaries with all their keys [0 .. len-1], and when
    [send_limit_order] leaves the level dictionaries and the dictionaries of
    active orders alone, the keys of a dictionary of active orders after
    [send_all_orders] are the keys it had and the level indices of its
    side. *)
Theorem send_all_orders_active_keys o sd k :
  keeps_levels H -> keeps_active H ->
  dense (ask_levels o) -> dense (bid_levels o) ->
  is_Some (active sd (final (send_all_orders H o)) !! k) <->
  is_Some (active sd o !! k) \/ 0 <= k < Z.of_nat (size (levels sd o)).
Proof.
  intros Hkl Hka Hda Hdb.
  assert (Hd : forall sd', dense (levels sd' o)) by (intros []; assumption).
  destruct (send_all_orders_active H o Hka) as [Hout _].
  destruct (decide (0 <= k < Z.of_nat (size (levels sd o)))) as [Hin|Hnin].
  - split; [intros _; right; assumption|]. intros _.
    destruct (send_all_orders_bound o sd k Hkl Hka Hd Hin)
      as (kw & r & _ & _ & Hact).
    rewrite Hact. eauto.
  - rewrite Hout by lia. split; [intros Hs; left; assumption|].
    intros [Hs|Hr]; [assumption | contradiction].
Qed.

(** X5: when [send_all_orders] returns, its submissions were made level by
    level from 0 upward, the ask of a level before its bid. *)
Theorem send_all_orders_submission_order o :
  result (send_all_orders H o) = Ok tt ->
  submissions_of (events (send_all_orders H o)) =
  flat_map (planned (Z.of_nat (size (ask_levels o)))
                    (Z.of_nat (size (bid_levels o))))
           (range (Z.max (Z.of_nat (size (ask_levels o)))
                         (Z.of_nat (size (bid_levels o))))).
Proof.
  rewrite send_all_orders_eq. cbv zeta. cbn [result events]. intros Hok.
  pose proof (send_loop_submissions
                (Z.of_nat (size (ask_levels o))) (Z.of_nat (size (bid_levels o)))
                (range (Z.max (Z.of_nat (size (ask_levels o)))
                              (Z.of_nat (size (bid_levels o))))) o) as Hs.
  rewrite Hok in Hs. simpl. exact Hs.
Qed.


Lemma send_body_keeps_keys na nb i o sd k :
  keeps_active H ->
  is_Some (active sd o !! k) ->
  is_Some (active sd (final (send_body H na nb i o)) !! k).
Proof.
  intros Hk Hs. body_cases na nb i o;
    rewrite ?active_set_active, ?keeps_active_side by assumption;
    repeat (case_decide; [eauto|]);
    rewrite ?active_set_active, ?keeps_active_side by assumption;
    repeat (case_decide; [eauto|]); assumption.
Qed.

(** X7: [send_all_orders] removes no key from a dictionary of active
    orders, whether it returns or raises. *)
Theorem send_all_orders_keeps_keys o sd k :
  keeps_active H ->
  is_Some (active sd o !! k) ->
  is_Some (active sd (final (send_all_orders H o)) !! k).
Proof.
  intros Hk Hs. rewrite send_all_orders_eq. cbv zeta. cbn [final].
  pose proof (for_each_rule
    (send_body H (Z.of_nat (size (ask_levels o)))
                 (Z.of_nat (size (bid_levels o))))
    (range (Z.max (Z.of_nat (size (ask_levels o)))
                  (Z.of_nat (size (bid_levels o)))))
    (fun _ o' _ => is_Some (active sd o' !! k))
    (fun _ _ _ o' _ => is_Some (active sd o' !! k))
    o Hs) as Hrule.
  lapply Hrule; clear Hrule.
  2:{ intros done i rest o' evs _ Hs'.
      pose proof (send_body_keeps_keys (Z.of_nat (size (ask_levels o)))
                    (Z.of_nat (size (bid_levels o))) i o' sd k Hk Hs') as Hb.
      destruct (result (send_body H _ _ i o')); exact Hb. }
  intros Hrule.
  destruct (result (for_each _ _ o)) as [[]|e]; [exact Hrule|].
  destruct Hrule as (_ & _ & _ & _ & Hr). exact Hr.
Qed.


(** X8: sent on an instance without active orders, by a [send_limit_order]
    that leaves the level dictionaries and the dictionaries of active orders
    alone, level dictionaries with all their keys [0 .. len-1] leave each
    side with as many handles as it has levels. *)
Theorem send_all_orders_fresh_count o sd :
  keeps_levels H -> keeps_active H ->
  dense (ask_levels o) -> dense (bid_levels o) ->
  active sd o = ∅ ->
  size (active sd (final (send_all_orders H o))) = size (levels sd o).
Proof.
  intros Hkl Hka Hda Hdb Hempty.
  assert (Hd : forall sd', dense (levels sd' o)) by (intros []; assumption).
  destruct (send_all_orders_active H o Hka) as [Hout _].
  assert (Hdom : dom (active sd (final (send_all_orders H o)))
                 = (list_to_set (seqZ 0 (Z.of_nat (size (levels sd o))))
                    : gset Z)).
  { apply set_eq. intros k.
    rewrite elem_of_dom, elem_of_list_to_set, elem_of_seqZ.
    destruct (decide (0 <= k < Z.of_nat (size (levels sd o)))) as [Hin|Hnin].
    - split; [intros _; lia|]. intros _.
      destruct (send_all_orders_bound o sd k Hkl Hka Hd Hin)
        as (kw & r & _ & _ & Hact).
      rewrite Hact. eauto.
    - rewrite Hout, Hempty, lookup_empty by lia.
      split; [intros [x Hx]; discriminate | lia]. }
  rewrite <- size_dom, Hdom, size_list_to_set by apply NoDup_seqZ.
  rewrite length_seqZ. lia.
Qed.

End MoreSendAll.

(** ** More on [refresh_all_orders] *)

Section MoreRefresh.

Context {Ext : Type} (H : @Hooks Ext).

Implicit Types (o : @Obj Ext) (sd : BookSide) (i k : Z).

Lemma cancels_of_app (a b : list Event) :
  cancels_of (a ++ b) = cancels_of a ++ cancels_of b.
Proof.
  induction a as [|e a IH]; [reflexivity|].
  destruct e; simpl; rewrite IH; reflexivity.
Qed.

Lemma cancels_of_loop (evs : list Event) :
  Forall loop_event evs -> cancels_of evs = [].
Proof.
  induction 1 as [|e evs He _ IH]; [reflexivity|].
  destruct e; simpl in *; try contradiction; exact IH.
Qed.

Lemma refresh_all_orders_resends o sym :
  symbol o = Some sym ->
  fst (delete_all_orders H sym true 1 o) = true ->
  result (refresh_all_orders H o)
    = result (send_all_orders H (before_resend H sym o)) /\
  final (refresh_all_orders H o)
    = final (send_all_orders H (before_resend H sym o)) /\
  exists evs,
    events (refresh_all_orders H o)
      = evs ++ events (send_all_orders H (before_resend H sym o)) /\
    submissions_of evs = [] /\
    cancels_of evs = [(sym, true, 1, true)].
Proof.
  intros Hs Hd. rewrite refresh_all_orders_eq, Hs. cbv zeta. rewrite Hd.
  rewrite check_and_process_eq. cbv zeta. cbn [result final events].
  unfold before_resend. cbv zeta.
  split; [reflexivity|]. split; [reflexivity|].
  destruct (fst (check_order_fills H _)).
  - exists [EvRefreshAllOrders; EvDeleteAllOrders sym true 1 true;
            EvCheckOrderFills InRefreshAll true;
            EvProcessOrderFill InRefreshAll; EvSetOrderLevels].
    repeat split.
  - exists [EvRefreshAllOrders; EvDeleteAllOrders sym true 1 true;
            EvCheckOrderFills InRefreshAll false; EvSetOrderLevels].
    repeat split.
Qed.

(** X9: when [send_limit_order] leaves the level dictionaries and the
    dictionaries of active orders alone, a bulk refresh whose cancellation
    succeeds and whose new level dictionaries have all their keys
    [0 .. len-1] returns with the levels that [set_order_levels] planned,
    and every one of them has been submitted with its own keyword arguments,
    its key bound to what that submission returned: below the new count no
    handle of before the refresh is left. *)
Theorem refresh_all_orders_rebinds o sym sd i :
  symbol o = Some sym ->
  fst (delete_all_orders H sym true 1 o) = true ->
  keeps_levels H -> keeps_active H ->
  dense (ask_levels (before_resend H sym o)) ->
  dense (bid_levels (before_resend H sym o)) ->
  0 <= i < Z.of_nat (size (levels sd (before_resend H sym o))) ->
  result (refresh_all_orders H o) = Ok tt /\
  levels sd (final (refresh_all_orders H o))
    = levels sd (before_resend H sym o) /\
  exists kw r,
    levels sd (before_resend H sym o) !! i = Some kw /\
    EvSendLimitOrder sd i kw false r ∈ events (refresh_all_orders H o) /\
    active sd (final (refresh_all_orders H o)) !! i = Some r.
Proof.
  intros Hs Hd Hkl Hka Hda Hdb Hi.
  destruct (refresh_all_orders_resends o sym Hs Hd)
    as (Hres & Hfin & evs & Hev & _).
  assert (Hdn : forall sd', dense (levels sd' (before_resend H sym o)))
    by (intros []; assumption).
  rewrite Hres, Hfin, Hev. split; [|split].
  - apply send_all_orders_dense_ok; assumption.
  - apply send_all_orders_levels. assumption.
  - destruct (send_all_orders_bound H (before_resend H sym o) sd i
                Hkl Hka Hdn Hi) as (kw & r & Hkw & Hin & Hact).
    exists kw, r. split; [assumption|]. split; [|assumption].
    apply elem_of_app. right. assumption.
Qed.

(** X10: [refresh_all_orders] asks for one bulk cancellation at most, none
    when the attribute [symbol] is missing, and always for the symbol of the
    instance, with verification and one retry. *)
Theorem refresh_all_orders_cancels_once o :
  cancels_of (events (refresh_all_orders H o)) =
  match symbol o with
  | None => []
  | Some sym => [(sym, true, 1, fst (delete_all_orders H sym true 1 o))]
  end.
Proof.
  rewrite refresh_all_orders_eq. destruct (symbol o) as [sym|]; [|reflexivity].
  cbv zeta. destruct (fst (delete_all_orders H sym true 1 o)); [|reflexivity].
  rewrite check_and_process_eq. cbv zeta. cbn [result final events].
  match goal with
  | |- context [send_all_orders H ?x] =>
      destruct (send_all_orders_events H x) as (evs & -> & Hall & _)
  end.
  simpl. f_equal. rewrite cancels_of_app.
  replace (cancels_of (EvSetOrderLevels :: EvSendAllOrders :: evs))
    with (cancels_of evs) by reflexivity.
  rewrite (cancels_of_loop evs Hall), app_nil_r.
  destruct (fst (check_order_fills H _)); reflexivity.
Qed.



End MoreRefresh.

(** ** More on [run] *)

Section MoreRun.

Context {Ext : Type} (H : @Hooks Ext).

Implicit Types (o : @Obj Ext) (sd : BookSide) (i k : Z).





Lemma run_iteration_idle o :
  fst (order_refresh_needed H o) = (false, false) ->
  result (run_iteration H o) = Ok (false, false) /\
  Forall idle_event (events (run_iteration H o)).
Proof.
  intros Hq. rewrite run_iteration_eq. cbv zeta. rewrite Hq.
  cbn [fst snd]. rewrite check_and_process_eq. cbv zeta.
  cbn [result events]. split; [reflexivity|].
  destruct (fst (check_order_fills H _)); repeat constructor.
Qed.

Lemma run_loop_idle n :
  (forall o, fst (order_refresh_needed H o) = (false, false)) ->
  forall o,
    result (run_loop H n (false, false) o) = Ok (false, false) /\
    Forall idle_event (events (run_loop H n (false, false) o)).
Proof.
  intros Hq. induction n as [|n IH]; intros o.
  - split; [reflexivity | constructor].
  - simpl. unfold bind.
    destruct (run_iteration_idle o (Hq o)) as [Hr Hev]. rewrite Hr.
    cbn [result events].
    destruct (IH (final (run_iteration H o))) as [Hr' Hev'].
    split; [exact Hr'|]. apply Forall_app. split; assumption.
Qed.

(** X12: when [order_refresh_needed] never asks for a refresh, [run] after
    its first submissions only queries the flags, checks fills and processes
    them: it cancels nothing, submits nothing more and does not stop. *)
Theorem run_idle n o :
  result (send_all_orders H o) = Ok tt ->
  (forall o', fst (order_refresh_needed H o') = (false, false)) ->
  result (run H n o) = Ok (false, false) /\
  exists evs,
    events (run H n o) = events (send_all_orders H o) ++ evs /\
    Forall idle_event evs.
Proof.
  intros Hs Hq. unfold run, bind. rewrite Hs. cbn [result events].
  destruct (run_loop_idle n Hq (final (send_all_orders H o))) as [Hr Hev].
  split; [exact Hr|]. eexists. split; [reflexivity | exact Hev].
Qed.

(** X14: on an instance as [__init__] makes it, [run] submits nothing at
    first; and if the first query of the flags asks for a bulk refresh while
    the attribute [symbol] is still missing, [run] stops there with
    [AttributeError], before any cancellation. *)
Theorem run_on_constructed b q s x n :
  snd (fst (order_refresh_needed H (init b q s x))) = true ->
  symbol (snd (order_refresh_needed H (init b q s x))) = None ->
  result (run H (S n) (init b q s x)) = Raise (AttributeError "symbol") /\
  events (run H (S n) (init b q s x)) =
    [EvSendAllOrders;
     EvOrderRefreshNeeded
       (fst (fst (order_refresh_needed H (init b q s x)))) true;
     EvRefreshAllOrders] /\
  final (run H (S n) (init b q s x))
    = snd (order_refresh_needed H (init b q s x)).
Proof.
  intros Hra Hsym.
  assert (Hsend : send_all_orders H (init b q s x)
                  = mkOut (Ok tt) (init b q s x) [EvSendAllOrders]).
  { rewrite send_all_orders_eq. cbv zeta. cbn [init ask_levels bid_levels].
    rewrite map_size_empty. reflexivity. }
  unfold run, bind. rewrite Hsend. cbn [result final events run_loop].
  unfold bind. rewrite run_iteration_eq. cbv zeta. rewrite Hra.
  cbn [result final events]. rewrite refresh_all_orders_eq, Hsym.
  cbn [result final events]. repeat split.
Qed.

(** X15: an iteration of [run] in which [order_refresh_needed] does not
    ask for a bulk refresh returns with both flags [False] and has touched
    no order by itself: no cancellation, no new levels, no submission. *)
Theorem run_iteration_without_refresh_all o :
  snd (fst (order_refresh_needed H o)) = false ->
  result (run_iteration H o) = Ok (false, false) /\
  Forall orderless_event (events (run_iteration H o)) /\
  cancels_of (events (run_iteration H o)) = [] /\
  submissions_of (events (run_iteration H o)) = [].
Proof.
  intros Hra. rewrite run_iteration_eq. cbv zeta. rewrite Hra.
  destruct (fst (fst (order_refresh_needed H o))).
  - cbn [result events]. repeat split. repeat constructor.
  - rewrite check_and_process_eq. cbv zeta. cbn [result events].
    destruct (fst (check_order_fills H _)); repeat split; repeat constructor.
Qed.

End MoreRun.

(** ** More of the class on concrete instances *)

Lemma dense_one_ask : dense one_ask.
Proof.
  intros i Hi. change (Z.of_nat (size one_ask)) with 1 in Hi.
  assert (Hc : i = 0) by lia. subst i. eexists. vm_compute. reflexivity.
Qed.

Lemma dense_no_level : dense (∅ : gmap Z Level).
Proof. intros i Hi. rewrite map_size_empty in Hi. lia. Qed.

(** The bid of level 0 of [fresh_book] is sent unverified with its own
    arguments (X2). *)
Lemma send_all_orders_sends_as_planned_witness :
  false = false /\ 0 <= 0 < Z.of_nat (size (levels Bid fresh_book)) /\
  levels Bid fresh_book !! 0 = Some (a_level "b0").
Proof.
  apply (send_all_orders_sends_as_planned shrinking fresh_book
           Bid 0 (a_level "b0") false "b0").
  - apply fixed_hooks_keep_levels.
  - vm_compute. do 3 apply list_elem_of_further. apply list_elem_of_here.
Defined.

(** Level 2 of the asks of [fresh_book] gets its handle (X3). *)
Lemma send_all_orders_binds_every_level_witness :
  result (send_all_orders shrinking fresh_book) = Ok tt /\
  exists kw r,
    levels Ask fresh_book !! 2 = Some kw /\
    EvSendLimitOrder Ask 2 kw false r
      ∈ events (send_all_orders shrinking fresh_book) /\
    active Ask (final (send_all_orders shrinking fresh_book)) !! 2 = Some r.
Proof.
  apply (send_all_orders_binds_every_level shrinking fresh_book Ask 2).
  - apply fixed_hooks_keep_levels.
  - apply fixed_hooks_keep_active.
  - exact dense_three_asks.
  - exact dense_one_bid.
  - vm_compute. split; [discriminate | reflexivity].
Defined.

(** Key 1 of the bids of [fresh_book] is not bound: there is one bid level
    (X4). *)
Lemma send_all_orders_active_keys_witness :
  is_Some (active Bid (final (send_all_orders shrinking fresh_book)) !! 1) <->
  is_Some (active Bid fresh_book !! 1) \/
  0 <= 1 < Z.of_nat (size (levels Bid fresh_book)).
Proof.
  apply (send_all_orders_active_keys shrinking fresh_book Bid 1).
  - apply fixed_hooks_keep_levels.
  - apply fixed_hooks_keep_active.
  - exact dense_three_asks.
  - exact dense_one_bid.
Defined.

(** Three asks and one bid: ask 0, bid 0, ask 1, ask 2 (X5). *)
Lemma send_all_orders_submission_order_witness :
  submissions_of (events (send_all_orders shrinking fresh_book))
  = [(Ask, 0); (Bid, 0); (Ask, 1); (Ask, 2)].
Proof.
  rewrite (send_all_orders_submission_order shrinking fresh_book).
  - vm_compute. reflexivity.
  - vm_compute. reflexivity.
Defined.


(** The handle of level 2 of [sent_book] survives a resend of one ask
    (X7). *)
Lemma send_all_orders_keeps_keys_witness :
  is_Some (active Ask
             (final (send_all_orders shrinking
                       (with_levels one_ask ∅ sent_book))) !! 2).
Proof.
  apply (send_all_orders_keeps_keys shrinking
           (with_levels one_ask ∅ sent_book) Ask 2).
  - apply fixed_hooks_keep_active.
  - vm_compute. eauto.
Defined.

(** Three asks sent from nothing: three handles (X8). *)
Lemma send_all_orders_fresh_count_witness :
  size (active Ask (final (send_all_orders shrinking fresh_book)))
  = size (levels Ask fresh_book).
Proof.
  apply (send_all_orders_fresh_count shrinking fresh_book Ask).
  - apply fixed_hooks_keep_levels.
  - apply fixed_hooks_keep_active.
  - exact dense_three_asks.
  - exact dense_one_bid.
  - reflexivity.
Defined.

(** A refresh of [sent_book] to one ask level rebinds key 0 (X9). *)
Lemma refresh_all_orders_rebinds_witness :
  result (refresh_all_orders shrinking sent_book) = Ok tt /\
  levels Ask (final (refresh_all_orders shrinking sent_book))
    = levels Ask (before_resend shrinking "BTC-USD" sent_book) /\
  exists kw r,
    levels Ask (before_resend shrinking "BTC-USD" sent_book) !! 0 = Some kw /\
    EvSendLimitOrder Ask 0 kw false r
      ∈ events (refresh_all_orders shrinking sent_book) /\
    active Ask (final (refresh_all_orders shrinking sent_book)) !! 0 = Some r.
Proof.
  apply (refresh_all_orders_rebinds shrinking sent_book "BTC-USD" Ask 0).
  - reflexivity.
  - reflexivity.
  - apply fixed_hooks_keep_levels.
  - apply fixed_hooks_keep_active.
  - exact dense_one_ask.
  - exact dense_no_level.
  - vm_compute. split; [discriminate | reflexivity].
Defined.


(** Without refresh requests, three iterations only check and process
    fills (X12). *)
Lemma run_idle_witness :
  result (run idle_hooks 3 fresh_book) = Ok (false, false) /\
  exists evs,
    events (run idle_hooks 3 fresh_book)
      = events (send_all_orders idle_hooks fresh_book) ++ evs /\
    Forall idle_event evs.
Proof.
  apply (run_idle idle_hooks 3 fresh_book).
  - vm_compute. reflexivity.
  - intros o'. reflexivity.
Defined.

(** A constructed instance stops at the first bulk refresh (X14). *)
Lemma run_on_constructed_witness :
  result (run shrinking 2 (init "BTC" "USD" "BTC-USD" tt))
    = Raise (AttributeError "symbol") /\
  events (run shrinking 2 (init "BTC" "USD" "BTC-USD" tt))
    = [EvSendAllOrders; EvOrderRefreshNeeded true true; EvRefreshAllOrders] /\
  final (run shrinking 2 (init "BTC" "USD" "BTC-USD" tt))
    = init "BTC" "USD" "BTC-USD" tt.
Proof.
  apply (run_on_constructed shrinking "BTC" "USD" "BTC-USD" tt 1);
    reflexivity.
Defined.

(** A refresh of individual orders touches no order by itself (X15). *)
Lemma run_iteration_without_refresh_all_witness :
  result (run_iteration incremental sent_book) = Ok (false, false) /\
  Forall orderless_event (events (run_iteration incremental sent_book)) /\
  cancels_of (events (run_iteration incremental sent_book)) = [] /\
  submissions_of (events (run_iteration incremental sent_book)) = [].
Proof.
  apply (run_iteration_without_refresh_all incremental sent_book).
  reflexivity.
Defined.
